(** * Room occupancy dashboard (script.js): a shallow embedding

    The page script fetches the most recent rows of the [room_stats] table,
    keeps one row per room in a plain object, and renders one card per
    retained row.  This file embeds the data path of script.js
    ([fetchLatestRoomCounts], [getOccupancyStatus], [formatTimestamp],
    [createRoomCard], [loadRoomData]) and proves properties of it. *)

From stdpp Require Import base option list strings pretty gmap sorting.
From Stdlib Require Import ZArith Lia Ascii.

Local Open Scope Z_scope.

#[local] Set Warnings "-clear-no-such-hyp".

(** ** The fragment of the language the script relies on *)

Module JS.

(** Primitive values that a JSON row can carry in a column.  Numbers are
    integers: every numeric column of the table is an INTEGER, far inside
    the range where a number prints as its plain decimal spelling. *)
Inductive jsval : Type :=
| JUndefined
| JNull
| JBool (b : bool)
| JNum (n : Z)
| JStr (s : string).

Global Instance jsval_eq_dec : EqDecision jsval.
Proof. solve_decision. Defined.

(** ToString on primitives; it is also ToPropertyKey for them. *)
Definition ToString (v : jsval) : string :=
  match v with
  | JUndefined => "undefined"
  | JNull => "null"
  | JBool true => "true"
  | JBool false => "false"
  | JNum n => pretty n
  | JStr s => s
  end.

Definition ToPropertyKey : jsval → string := ToString.

(** Strict equality [v === n] against a number literal. *)
Definition strict_eq_num (v : jsval) (n : Z) : bool :=
  match v with
  | JNum m => bool_decide (m = n)
  | _ => false
  end.

(** Decimal digits of a property key. *)
Definition digit (c : ascii) : option N :=
  let n := N_of_ascii c in
  if decide (48 ≤ n ≤ 57)%N then Some (n - 48)%N else None.

Fixpoint digits (s : string) (acc : N) : option N :=
  match s with
  | EmptyString => Some acc
  | String c s' => d ← digit c; digits s' (10 * acc + d)%N
  end.

(** A property key is an array index when it is the canonical decimal
    spelling of an integer below 2^32 - 1. *)
Definition array_index (k : string) : option N :=
  match k with
  | EmptyString => None
  | _ =>
      n ← digits k 0;
      if decide (pretty n = k ∧ (n < 2 ^ 32 - 1)%N) then Some n else None
  end.

(** The property names every plain object inherits from
    [Object.prototype]; each holds a function, except [__proto__] which
    reads as the prototype object itself. *)
Definition ObjectPrototype_names : list string :=
  [ "constructor"; "__defineGetter__"; "__defineSetter__";
    "hasOwnProperty"; "__lookupGetter__"; "__lookupSetter__";
    "isPrototypeOf"; "propertyIsEnumerable"; "toString"; "valueOf";
    "__proto__"; "toLocaleString" ].

Definition inherited (k : string) : bool :=
  bool_decide (k ∈ ObjectPrototype_names).

End JS.

Import JS.

(** ** Rows and the per-room object *)

(** A row as delivered by the client library: a JSON object, read by
    column name.  A column that is not there reads as [undefined]. *)
Abbreviation row := (gmap string jsval).

Definition field (record : row) (name : string) : jsval :=
  default JUndefined (record !! name).

Definition room_id (record : row) : jsval := field record "room_id".
Definition timestamp (record : row) : jsval := field record "timestamp".
Definition people_count (record : row) : jsval := field record "people_count".

(** The room a row is grouped under: the property key its [room_id]
    converts to. *)
Definition room_key (record : row) : string := ToPropertyKey (room_id record).

(** [roomMap]: the own properties of the object literal, in the order of
    their creation. *)
Abbreviation obj := (list (string * row)).

(** What reading [roomMap[k]] yields. *)
Inductive propval : Type :=
| PUndefined
| POwn (record : row)
| PInherited (name : string).

Fixpoint own (o : obj) (k : string) : option row :=
  match o with
  | [] => None
  | (k', record) :: o' => if decide (k' = k) then Some record else own o' k
  end.

Definition Get (o : obj) (k : string) : propval :=
  match own o k with
  | Some record => POwn record
  | None => if inherited k then PInherited k else PUndefined
  end.

(** Rows are objects and inherited members are functions or objects: all
    truthy.  Only a missing property is falsy. *)
Definition ToBoolean (v : propval) : bool :=
  match v with
  | PUndefined => false
  | POwn _ | PInherited _ => true
  end.

(** [roomMap[k] = record] for a key that is not inherited: the value of an
    own property is replaced in place, a new property is created last. *)
Fixpoint Put (o : obj) (k : string) (record : row) : obj :=
  match o with
  | [] => [(k, record)]
  | (k', r') :: o' =>
      if decide (k' = k) then (k', record) :: o' else (k', r') :: Put o' k record
  end.

(** One iteration of [for (const record of data)]. *)
Definition roomMap_step (roomMap : obj) (record : row) : obj :=
  if negb (ToBoolean (Get roomMap (room_key record)))
  then Put roomMap (room_key record) record
  else roomMap.

Definition roomMap_loop (data : list row) : obj := foldl roomMap_step [] data.

(** Own property enumeration order: array indices in ascending numeric
    order, then the other keys in creation order. *)
Definition index_le (x y : N * row) : Prop := (x.1 ≤ y.1)%N.

Global Instance index_le_dec : RelDecision index_le.
Proof. intros x y. unfold index_le. apply _. Defined.

Definition index_entries (o : obj) : list (N * row) :=
  omap (λ p, (λ i, (i, p.2)) <$> array_index p.1) o.

Definition string_entries (o : obj) : obj :=
  filter (λ p, array_index p.1 = None) o.

Definition Object_values (o : obj) : list row :=
  (merge_sort index_le (index_entries o)).*2 ++ (string_entries o).*2.

(** The grouping of [fetchLatestRoomCounts], from the rows of a successful
    response to the returned array. *)
Definition latestPerRoom (data : list row) : list row :=
  Object_values (roomMap_loop data).

(** ** What the host environment supplies *)

(** Conversions whose result depends on the browser and its locale.  A
    number that may be NaN is an [option Z], with [None] for NaN. *)
Record host : Type := {
  (** the time value [Date.parse] gives a string *)
  DateParse : string → option Z;
  (** numeric conversion of a string, as done by [<=] *)
  StringToNumber : string → option Z;
  (** [toLocaleTimeString] with two-digit hour, minute and second *)
  toLocaleTimeString_2digit : Z → string;
  (** [toLocaleTimeString] without options *)
  toLocaleTimeString : Z → string
}.

Abbreviation num := (option Z).

Definition num_ToString (x : num) : string :=
  match x with
  | Some n => pretty n
  | None => "NaN"
  end.

(** [x - y], [Math.floor(x / d)] for a positive literal [d], and [x < n]:
    NaN propagates through arithmetic and fails every comparison. *)
Definition num_sub (x y : num) : num :=
  a ← x; b ← y; Some (a - b).

Definition floor_div (x : num) (d : Z) : num :=
  a ← x; Some (a / d).

Definition num_lt (x : num) (n : Z) : bool :=
  match x with
  | Some a => bool_decide (a < n)
  | None => false
  end.

Definition num_le (x : num) (n : Z) : bool :=
  match x with
  | Some a => bool_decide (a ≤ n)
  | None => false
  end.

(** The largest time value a Date holds, in milliseconds either side of
    the epoch. *)
Definition max_time : Z := 8640000000000000.

Definition TimeClip (t : Z) : num :=
  if decide (Z.abs t ≤ max_time) then Some t else None.

Section script.
Variable env : host.

Definition ToNumber (v : jsval) : num :=
  match v with
  | JUndefined => None
  | JNull => Some 0
  | JBool true => Some 1
  | JBool false => Some 0
  | JNum n => Some n
  | JStr s => StringToNumber env s
  end.

(** [new Date(v)]: the time value of the date object, NaN for an invalid
    date. *)
Definition newDate (v : jsval) : num :=
  match v with
  | JStr s => DateParse env s
  | _ => t ← ToNumber v; TimeClip t
  end.

(** The instant a row was observed at. *)
Definition observedAt (record : row) : num := newDate (timestamp record).

(** [a] was observed no earlier than [b]; both instants must be valid. *)
Definition at_least_as_recent (a b : row) : Prop :=
  match observedAt a, observedAt b with
  | Some ta, Some tb => tb ≤ ta
  | _, _ => False
  end.

(** The order the query asks the backend for: timestamp descending. *)
Definition newest_first (data : list row) : Prop :=
  StronglySorted at_least_as_recent data.

(** *** getOccupancyStatus *)

Record occupancy : Type := { status : string; color : string }.

Definition getOccupancyStatus (count : jsval) : occupancy :=
  if strict_eq_num count 0 then
    {| status := "empty"; color := "#0369a1" |}
  else if num_le (ToNumber count) 5 then
    {| status := "moderate"; color := "#92400e" |}
  else
    {| status := "full"; color := "#991b1b" |}.

(** *** formatTimestamp *)

(** [date.toLocaleTimeString([], {...})]; an invalid date prints as such. *)
Definition date_toLocaleTimeString_2digit (date : num) : string :=
  match date with
  | Some t => toLocaleTimeString_2digit env t
  | None => "Invalid Date"
  end.

(** [now] is the time value of [new Date()].  Constructing a date from a
    primitive never throws, so the [catch] branch with its ['Unknown'] is
    not reached. *)
Definition formatTimestamp (now : Z) (isoString : jsval) : string :=
  let date := newDate isoString in
  let diffMs := num_sub (Some now) date in
  let diffMins := floor_div diffMs 60000 in
  let diffSecs := floor_div diffMs 1000 in
  if num_lt diffMins 1 then num_ToString diffSecs +:+ "s ago"
  else if num_lt diffMins 60 then num_ToString diffMins +:+ "m ago"
  else date_toLocaleTimeString_2digit date.

(** *** createRoomCard *)

Definition toUpperCase_ascii (c : ascii) : ascii :=
  let n := N_of_ascii c in
  if decide (97 ≤ n ≤ 122)%N then ascii_of_N (n - 32) else c.

(** [s.charAt(0).toUpperCase() + s.slice(1)] *)
Definition capitalize (s : string) : string :=
  match s with
  | EmptyString => EmptyString
  | String c s' => String (toUpperCase_ascii c) s'
  end.

(** The values interpolated into the card template; the markup around
    them is fixed.  [card_room] is the value handed to [escapeHtml]. *)
Record card : Type := {
  card_room : jsval;
  card_color : string;
  card_occupancy : string;
  card_badge_class : string;
  card_badge_text : string;
  card_timestamp : string
}.

Definition createRoomCard (now : Z) (room : row) : card :=
  let occ := getOccupancyStatus (people_count room) in
  let formattedTime := formatTimestamp now (timestamp room) in
  {| card_room := room_id room;
     card_color := color occ;
     card_occupancy :=
       ToString (people_count room) +:+ " " +:+
       (if strict_eq_num (people_count room) 1 then "person" else "people");
     card_badge_class := status occ;
     card_badge_text := capitalize (status occ);
     card_timestamp := "Last updated: " +:+ formattedTime |}.

Definition renderRoomCards (now : Z) (rooms : list row) : list card :=
  createRoomCard now <$> rooms.

End script.

(** ** fetchLatestRoomCounts *)

(** How the awaited query settles.  The client library resolves with
    exactly one of [data] and [error] set; a network fault rejects. *)
Inductive response : Type :=
| Rejects (message : string)
| ReturnsError (message : string)
| ReturnsData (data : list row).

(** A call of [loadRoomData] suspended at its [await]: on a query that was
    sent, or on the rejection thrown because there is no client. *)
Inductive task : Type :=
| AwaitResponse
| AwaitRejection (message : string).

(** The part of [fetchLatestRoomCounts] up to the [await]: without a client
    it throws, otherwise the query is sent. *)
Definition fetchLatestRoomCounts_start (supabaseClient : bool) : task :=
  if supabaseClient then AwaitResponse
  else AwaitRejection "Supabase client not initialized".

Definition queries_sent (t : task) : nat :=
  match t with
  | AwaitResponse => 1
  | AwaitRejection _ => 0
  end.

(** The part of [fetchLatestRoomCounts] after the [await]: the message of
    the error thrown, or the array returned. *)
Definition fetchLatestRoomCounts_resume (resp : response) : string + list row :=
  match resp with
  | Rejects message => inl message
  | ReturnsError message => inl message
  | ReturnsData data => inr (latestPerRoom data)
  end.

(** ** The page and loadRoomData *)

Record dom : Type := {
  refreshBtn_disabled : bool;
  loadingIndicator_hidden : bool;
  errorMessage_hidden : bool;
  errorMessage_text : string;
  emptyState_hidden : bool;
  roomGrid : list card;
  statusText : string;
  statusText_color : string;
  lastUpdateText : string
}.

Definition set_refreshBtn_disabled (b : bool) (d : dom) : dom :=
  {| refreshBtn_disabled := b;
     loadingIndicator_hidden := loadingIndicator_hidden d;
     errorMessage_hidden := errorMessage_hidden d;
     errorMessage_text := errorMessage_text d;
     emptyState_hidden := emptyState_hidden d;
     roomGrid := roomGrid d;
     statusText := statusText d;
     statusText_color := statusText_color d;
     lastUpdateText := lastUpdateText d |}.

Definition set_loadingIndicator_hidden (b : bool) (d : dom) : dom :=
  {| refreshBtn_disabled := refreshBtn_disabled d;
     loadingIndicator_hidden := b;
     errorMessage_hidden := errorMessage_hidden d;
     errorMessage_text := errorMessage_text d;
     emptyState_hidden := emptyState_hidden d;
     roomGrid := roomGrid d;
     statusText := statusText d;
     statusText_color := statusText_color d;
     lastUpdateText := lastUpdateText d |}.

Definition showLoadingIndicator : dom → dom := set_loadingIndicator_hidden false.
Definition hideLoadingIndicator : dom → dom := set_loadingIndicator_hidden true.

Definition showError (message : string) (d : dom) : dom :=
  {| refreshBtn_disabled := refreshBtn_disabled d;
     loadingIndicator_hidden := loadingIndicator_hidden d;
     errorMessage_hidden := false;
     errorMessage_text := message;
     emptyState_hidden := emptyState_hidden d;
     roomGrid := roomGrid d;
     statusText := statusText d;
     statusText_color := statusText_color d;
     lastUpdateText := lastUpdateText d |}.

Definition hideErrorMessage (d : dom) : dom :=
  {| refreshBtn_disabled := refreshBtn_disabled d;
     loadingIndicator_hidden := loadingIndicator_hidden d;
     errorMessage_hidden := true;
     errorMessage_text := errorMessage_text d;
     emptyState_hidden := emptyState_hidden d;
     roomGrid := roomGrid d;
     statusText := statusText d;
     statusText_color := statusText_color d;
     lastUpdateText := lastUpdateText d |}.

(** [showEmptyState] also empties the grid. *)
Definition showEmptyState (d : dom) : dom :=
  {| refreshBtn_disabled := refreshBtn_disabled d;
     loadingIndicator_hidden := loadingIndicator_hidden d;
     errorMessage_hidden := errorMessage_hidden d;
     errorMessage_text := errorMessage_text d;
     emptyState_hidden := false;
     roomGrid := [];
     statusText := statusText d;
     statusText_color := statusText_color d;
     lastUpdateText := lastUpdateText d |}.

Definition hideEmptyState (d : dom) : dom :=
  {| refreshBtn_disabled := refreshBtn_disabled d;
     loadingIndicator_hidden := loadingIndicator_hidden d;
     errorMessage_hidden := errorMessage_hidden d;
     errorMessage_text := errorMessage_text d;
     emptyState_hidden := true;
     roomGrid := roomGrid d;
     statusText := statusText d;
     statusText_color := statusText_color d;
     lastUpdateText := lastUpdateText d |}.

Definition set_roomGrid (cards : list card) (d : dom) : dom :=
  {| refreshBtn_disabled := refreshBtn_disabled d;
     loadingIndicator_hidden := loadingIndicator_hidden d;
     errorMessage_hidden := errorMessage_hidden d;
     errorMessage_text := errorMessage_text d;
     emptyState_hidden := emptyState_hidden d;
     roomGrid := cards;
     statusText := statusText d;
     statusText_color := statusText_color d;
     lastUpdateText := lastUpdateText d |}.

(** The callers pass one of the four literal types. *)
Definition getStatusColor (type : string) : string :=
  if decide (type = "success") then "#10b981"
  else if decide (type = "error") then "#ef4444"
  else if decide (type = "warning") then "#f59e0b"
  else "#6b7280".

Definition updateStatus (message type : string) (d : dom) : dom :=
  {| refreshBtn_disabled := refreshBtn_disabled d;
     loadingIndicator_hidden := loadingIndicator_hidden d;
     errorMessage_hidden := errorMessage_hidden d;
     errorMessage_text := errorMessage_text d;
     emptyState_hidden := emptyState_hidden d;
     roomGrid := roomGrid d;
     statusText := message;
     statusText_color := getStatusColor type;
     lastUpdateText := lastUpdateText d |}.

Definition updateLastUpdateTime (env : host) (now : Z) (d : dom) : dom :=
  {| refreshBtn_disabled := refreshBtn_disabled d;
     loadingIndicator_hidden := loadingIndicator_hidden d;
     errorMessage_hidden := errorMessage_hidden d;
     errorMessage_text := errorMessage_text d;
     emptyState_hidden := emptyState_hidden d;
     roomGrid := roomGrid d;
     statusText := statusText d;
     statusText_color := statusText_color d;
     lastUpdateText := "Last updated: " +:+ toLocaleTimeString env now |}.

(** The script's globals, the page, the queries sent to the backend so far
    and the suspended calls. *)
Record page : Type := {
  isLoading : bool;
  supabaseClient : bool;
  queries : nat;
  awaiting : list task;
  document : dom
}.

(** [loadRoomData()] up to its [await]. *)
Definition loadRoomData (p : page) : page :=
  if isLoading p then p
  else
    let d :=
      hideErrorMessage
        (showLoadingIndicator (set_refreshBtn_disabled true (document p))) in
    let t := fetchLatestRoomCounts_start (supabaseClient p) in
    {| isLoading := true;
       supabaseClient := supabaseClient p;
       queries := (queries p + queries_sent t)%nat;
       awaiting := awaiting p ++ [t];
       document := d |}.

(** The rest of [loadRoomData] once the awaited promise has settled: the
    [try] body or the [catch] block, then the [finally] block.  The clock is
    read as [now] throughout this turn. *)
Definition loadRoomData_resume
    (env : host) (now : Z) (outcome : string + list row) (p : page) : page :=
  let d :=
    match outcome with
    | inr rooms =>
        updateLastUpdateTime env now
          (if decide (length rooms = 0%nat) then
             updateStatus "No rooms with data" "warning"
               (showEmptyState (document p))
           else
             updateStatus
               ("Connected • " +:+ pretty (length rooms) +:+ " room(s)")
               "success"
               (set_roomGrid (renderRoomCards env now rooms)
                  (hideEmptyState (document p))))
    | inl message =>
        showEmptyState
          (showError ("Failed to load room data: " +:+ message)
             (updateStatus "Failed to load data" "error" (document p)))
    end in
  {| isLoading := false;
     supabaseClient := supabaseClient p;
     queries := queries p;
     awaiting := awaiting p;
     document := hideLoadingIndicator (set_refreshBtn_disabled false d) |}.

Definition take_task (i : nat) (p : page) : page :=
  {| isLoading := isLoading p;
     supabaseClient := supabaseClient p;
     queries := queries p;
     awaiting := delete i (awaiting p);
     document := document p |}.

(** What happens to the page: the refresh button or timer calls
    [loadRoomData], or the promise awaited by the [i]-th suspended call
    settles. *)
Inductive event : Type :=
| Refresh
| Settle (i : nat) (resp : response) (now : Z).

Definition step (env : host) (p : page) (e : event) : page :=
  match e with
  | Refresh => loadRoomData p
  | Settle i resp now =>
      match awaiting p !! i with
      | None => p
      | Some AwaitResponse =>
          loadRoomData_resume env now (fetchLatestRoomCounts_resume resp)
            (take_task i p)
      | Some (AwaitRejection message) =>
          loadRoomData_resume env now (inl message) (take_task i p)
      end
  end.

Definition run (env : host) (p : page) (events : list event) : page :=
  foldl (step env) p events.

(** ** The reduction as the specification words it *)

(** A record whose room has not been seen yet is kept, later records of a
    seen room are discarded; the result lists the kept records in order of
    arrival. *)
Fixpoint first_seen (seen : gset string) (records : list row) : list row :=
  match records with
  | [] => []
  | record :: records' =>
      if decide (room_key record ∈ seen) then first_seen seen records'
      else record :: first_seen ({[room_key record]} ∪ seen) records'
  end.

(** The array index a row's room identifier spells, if any. *)
Definition room_index (record : row) : option N :=
  array_index (room_key record).

(** A room whose identifier is neither an array index nor the name of an
    inherited member. *)
Definition plain_room (record : row) : Prop :=
  room_index record = None ∧ inherited (room_key record) = false.

Global Instance plain_room_dec (record : row) : Decision (plain_room record).
Proof. unfold plain_room. apply _. Defined.

Definition ascending_index (a b : row) : Prop :=
  match room_index a, room_index b with
  | Some i, Some j => (i ≤ j)%N
  | _, _ => False
  end.

(** A room whose identifier is an array index. *)
Definition indexed_room (record : row) : Prop := is_Some (room_index record).

Global Instance indexed_room_dec (record : row) : Decision (indexed_room record).
Proof. unfold indexed_room. apply _. Defined.

Definition strictly_ascending_index (a b : row) : Prop :=
  match room_index a, room_index b with
  | Some i, Some j => (i < j)%N
  | _, _ => False
  end.

(** The position of a status in the order empty, moderate, full. *)
Definition tier_rank (s : string) : nat :=
  if decide (s = "empty") then 0
  else if decide (s = "moderate") then 1
  else if decide (s = "full") then 2
  else 3.

(** No call of [loadRoomData] is under way. *)
Definition idle (p : page) : Prop :=
  isLoading p = false ∧ awaiting p = [].


(** ** A sample environment and sample rows *)

(** A row with the three columns the query selects. *)
Definition mkRow (rid : jsval) (ts : string) (count : Z) : row :=
  {[ "room_id" := rid; "timestamp" := JStr ts; "people_count" := JNum count ]}.

(** Time values of the timestamps used in the samples; any other string is
    taken not to be a date. *)
Definition sample_DateParse (s : string) : option Z :=
  if decide (s = "2024-05-01T10:00:00+00:00") then Some 1714557600000
  else if decide (s = "2024-05-01T09:59:00+00:00") then Some 1714557540000
  else if decide (s = "2024-05-01T09:50:00+00:00") then Some 1714557000000
  else if decide (s = "2024-05-01T10:00:05+00:00") then Some 1714557605000
  else None.

(** No string converts to a number, and times of day print as a fixed
    placeholder. *)
Definition sample_host : host :=
  {| DateParse := sample_DateParse;
     StringToNumber := λ _, None;
     toLocaleTimeString_2digit := λ _, "--:--:--";
     toLocaleTimeString := λ _, "--:--:--" |}.

(** Four readings of two rooms, newest first. *)
Definition sample_latest_wins_data : list row :=
  [ mkRow (JStr "Lobby") "2024-05-01T10:00:00+00:00" 3;
    mkRow (JStr "Lab") "2024-05-01T09:59:00+00:00" 0;
    mkRow (JStr "Lobby") "2024-05-01T09:59:00+00:00" 7;
    mkRow (JStr "Lobby") "2024-05-01T09:50:00+00:00" 2 ].

(** A room called like a method of every object. *)
Definition row_toString : row :=
  mkRow (JStr "toString") "2024-05-01T10:00:00+00:00" 4.




(** Rooms numbered after their cameras. *)
Definition row_201 : row := mkRow (JStr "201") "2024-05-01T10:00:00+00:00" 2.
Definition row_101 : row := mkRow (JStr "101") "2024-05-01T09:59:00+00:00" 6.

Definition blank_dom : dom :=
  {| refreshBtn_disabled := false;
     loadingIndicator_hidden := true;
     errorMessage_hidden := true;
     errorMessage_text := EmptyString;
     emptyState_hidden := true;
     roomGrid := [];
     statusText := EmptyString;
     statusText_color := EmptyString;
     lastUpdateText := EmptyString |}.

(** The page once the client has been created. *)
Definition connected_page : page :=
  {| isLoading := false;
     supabaseClient := true;
     queries := 0;
     awaiting := [];
     document := blank_dom |}.

(** The page after one successful refresh of two rooms. *)
Definition loaded_page : page :=
  run sample_host connected_page
    [ Refresh;
      Settle 0 (ReturnsData sample_latest_wins_data) 1714557601000 ].

(** ** Definitions used to state the properties *)

(** The properties the loop creates on an object that already owns the keys
    [seen]: the first row of every new room, in order of arrival. *)
Fixpoint retained (seen : gset string) (data : list row) : obj :=
  match data with
  | [] => []
  | record :: data' =>
      if decide (room_key record ∈ seen ∨ inherited (room_key record) = true)
      then retained seen data'
      else (room_key record, record)
             :: retained ({[room_key record]} ∪ seen) data'
  end.

(** Either nothing is under way, or exactly one call is suspended and the
    flag is up. *)
Definition one_or_none (p : page) : Prop :=
  idle p ∨ (isLoading p = true ∧ ∃ t, awaiting p = [t]).

(** ** escapeHtml *)

(** [div.textContent = text]: [null] and [undefined] give the empty text,
    any other primitive its string. *)
Definition textContent_of (text : jsval) : string :=
  match text with
  | JUndefined | JNull => EmptyString
  | _ => ToString text
  end.

(** [div.innerHTML] of a text node.  Strings are sequences of UTF-8 bytes;
    the no-break space U+00A0 is the byte pair C2 A0. *)
Fixpoint escape_text (s : string) : string :=
  match s with
  | EmptyString => EmptyString
  | String c s' =>
      if decide (c = "&"%char) then "&amp;" +:+ escape_text s'
      else if decide (c = "<"%char) then "&lt;" +:+ escape_text s'
      else if decide (c = ">"%char) then "&gt;" +:+ escape_text s'
      else if decide (c = ascii_of_N 194) then
        match s' with
        | String c' s'' =>
            if decide (c' = ascii_of_N 160) then "&nbsp;" +:+ escape_text s''
            else String c (escape_text s')
        | EmptyString => String c EmptyString
        end
      else String c (escape_text s')
  end.

Definition escapeHtml (text : jsval) : string :=
  escape_text (textContent_of text).

(** The heading a card shows for its room. *)
Definition card_heading (c : card) : string := escapeHtml (card_room c).

(** ** Credentials and start-up *)

(** The two entries of [CONFIG] that change, and [localStorage]. *)
Record config : Type := {
  SUPABASE_URL : string;
  SUPABASE_ANON_KEY : string
}.

Abbreviation localStorage := (gmap string string).

(** A string read from storage or from a prompt; [None] is [null]. *)
Definition truthy (s : option string) : bool :=
  match s with
  | Some (String _ _) => true
  | Some EmptyString | None => false
  end.

(** [localStorage.getItem(k) || ''], as [CONFIG] is set up when the script
    loads. *)
Definition CONFIG_of (storage : localStorage) : config :=
  {| SUPABASE_URL :=
       if truthy (storage !! "SUPABASE_URL")
       then default EmptyString (storage !! "SUPABASE_URL") else EmptyString;
     SUPABASE_ANON_KEY :=
       if truthy (storage !! "SUPABASE_ANON_KEY")
       then default EmptyString (storage !! "SUPABASE_ANON_KEY")
       else EmptyString |}.

Definition startsWith (s pat : string) : bool := String.prefix pat s.

Fixpoint includes (s pat : string) : bool :=
  String.prefix pat s ||
  match s with
  | EmptyString => false
  | String _ s' => includes s' pat
  end.

(** What [promptForCredentials] does, given what the user answers to the two
    prompts ([None] when a prompt is cancelled; the second prompt is only
    shown after a non-empty answer to the first). *)
Inductive prompt_outcome : Type :=
| NotPrompted
| PromptError (message : string)
| Saved (storage : localStorage) (cfg : config).

Definition promptForCredentials
    (storage : localStorage) (url key : option string) : prompt_outcome :=
  if negb (truthy (storage !! "SUPABASE_URL"))
     || negb (truthy (storage !! "SUPABASE_ANON_KEY"))
  then
    if negb (truthy url) then PromptError "Supabase URL is required"
    else if negb (truthy key) then PromptError "Supabase Anon Key is required"
    else
      let u := default EmptyString url in
      let k := default EmptyString key in
      if negb (startsWith u "https://") || negb (includes u "supabase.co")
      then PromptError "Invalid Supabase URL format"
      else
        Saved (<["SUPABASE_ANON_KEY" := k]> (<["SUPABASE_URL" := u]> storage))
              {| SUPABASE_URL := u; SUPABASE_ANON_KEY := k |}
  else NotPrompted.

(** The script's state from start-up on: [CONFIG], the storage, whether the
    client library is on the page, the listeners on the refresh button, and
    the page. *)
Record app : Type := {
  CONFIG : config;
  storage : localStorage;
  sdk_loaded : bool;
  click_listeners : nat;
  view : page
}.

Definition with_document (f : dom → dom) (p : page) : page :=
  {| isLoading := isLoading p;
     supabaseClient := supabaseClient p;
     queries := queries p;
     awaiting := awaiting p;
     document := f (document p) |}.

Definition with_client (p : page) : page :=
  {| isLoading := isLoading p;
     supabaseClient := true;
     queries := queries p;
     awaiting := awaiting p;
     document := document p |}.

(** [initializeApp] once the credentials are there, up to its [await]:
    [initializeSupabase] throws without the library, and the [catch] block
    reports it; otherwise the client is created (the library's
    [createClient] is taken to return one), the button gets its listener
    and [loadRoomData] is called. *)
Definition initializeApp_connect (a : app) : app :=
  if sdk_loaded a then
    {| CONFIG := CONFIG a;
       storage := storage a;
       sdk_loaded := sdk_loaded a;
       click_listeners := S (click_listeners a);
       view := loadRoomData (with_client (view a)) |}
  else
    {| CONFIG := CONFIG a;
       storage := storage a;
       sdk_loaded := sdk_loaded a;
       click_listeners := click_listeners a;
       view :=
         with_document
           (λ d, showError "Failed to initialize: Supabase SDK not loaded"
                   (updateStatus "Initialization failed" "error" d))
           (view a) |}.

(** [initializeApp()], with the answers the user gives if prompted.  After
    credentials are saved, [promptForCredentials] calls [initializeApp]
    again, which then finds them in [CONFIG]. *)
Definition initializeApp (url key : option string) (a : app) : app :=
  if negb (truthy (Some (SUPABASE_URL (CONFIG a))))
     || negb (truthy (Some (SUPABASE_ANON_KEY (CONFIG a))))
  then
    match promptForCredentials (storage a) url key with
    | NotPrompted => a
    | PromptError message =>
        {| CONFIG := CONFIG a;
           storage := storage a;
           sdk_loaded := sdk_loaded a;
           click_listeners := click_listeners a;
           view := with_document (showError message) (view a) |}
    | Saved st cfg =>
        initializeApp_connect
          {| CONFIG := cfg;
             storage := st;
             sdk_loaded := sdk_loaded a;
             click_listeners := click_listeners a;
             view := view a |}
    end
  else initializeApp_connect a.

(** The rest of [initializeApp] once the awaited [loadRoomData] is done. *)
Definition initializeApp_finish (a : app) : app :=
  {| CONFIG := CONFIG a;
     storage := storage a;
     sdk_loaded := sdk_loaded a;
     click_listeners := click_listeners a;
     view := with_document (updateStatus "Connected" "success") (view a) |}.

(** An event of the page, seen from the whole script. *)
Definition app_step (env : host) (a : app) (e : event) : app :=
  {| CONFIG := CONFIG a;
     storage := storage a;
     sdk_loaded := sdk_loaded a;
     click_listeners := click_listeners a;
     view := step env (view a) e |}.

(** [clearCredentials()]: both entries are removed and the page reloads,
    which sets [CONFIG] up from the storage again. *)
Definition clearCredentials (st : localStorage) : localStorage :=
  delete "SUPABASE_ANON_KEY" (delete "SUPABASE_URL" st).

(** ** More definitions used to state properties *)

(** The button and the loading indicator follow the flag. *)
Definition controls_in_sync (p : page) : Prop :=
  refreshBtn_disabled (document p) = isLoading p ∧
  loadingIndicator_hidden (document p) = negb (isLoading p).

(** The placeholder for "no data" is visible exactly when the grid is
    empty. *)
Definition placeholder_matches (p : page) : Prop :=
  emptyState_hidden (document p) = bool_decide (roomGrid (document p) ≠ []).

Definition is_settle (e : event) : bool :=
  match e with
  | Settle _ _ _ => true
  | Refresh => false
  end.

(** The distinct rooms of a response that the grouping can hold. *)
Definition distinct_rooms (data : list row) : gset string :=
  list_to_set (filter (λ k, inherited k = false) (room_key <$> data)).

Definition credentials_valid (u k : string) : Prop :=
  u ≠ EmptyString ∧ k ≠ EmptyString ∧
  startsWith u "https://" = true ∧ includes u "supabase.co" = true.

(** Whether a byte occurs in a string. *)
Fixpoint occurs (c : ascii) (s : string) : bool :=
  match s with
  | EmptyString => false
  | String c' s' => bool_decide (c' = c) || occurs c s'
  end.

(** Neither stored entry is usable. *)
Definition lacks_credentials (st : localStorage) : Prop :=
  truthy (st !! "SUPABASE_URL") = false ∨
  truthy (st !! "SUPABASE_ANON_KEY") = false.

(** The page as the script finds it, before any client exists. *)
Definition fresh_app (st : localStorage) (sdk : bool) : app :=
  {| CONFIG := CONFIG_of st;
     storage := st;
     sdk_loaded := sdk;
     click_listeners := 0;
     view :=
       {| isLoading := false;
          supabaseClient := false;
          queries := 0;
          awaiting := [];
          document := blank_dom |} |}.

(** ** The query and the table behind it *)










(** * Properties *)

(** ** Sample evaluations *)

Example array_index_101 : array_index "101" = Some 101%N.
Proof. vm_compute. reflexivity. Qed.

Example array_index_leading_zero : array_index "007" = None.
Proof. vm_compute. reflexivity. Qed.

Example array_index_name : array_index "Lobby" = None.
Proof. vm_compute. reflexivity. Qed.

Example latestPerRoom_sample :
  latestPerRoom
    [ mkRow (JStr "A") "t3" 3; mkRow (JStr "A") "t2" 4; mkRow (JStr "B") "t1" 0 ]
  = [ mkRow (JStr "A") "t3" 3; mkRow (JStr "B") "t1" 0 ].
Proof. vm_compute. reflexivity. Qed.

(** ** The grouping loop, characterised *)

Section grouping.
Implicit Types (o : obj) (k : string) (record r : row) (data : list row).
Implicit Types (seen : gset string).

Lemma own_None o k : own o k = None ↔ k ∉ o.*1.
Proof.
  induction o as [|[k' r'] o IH]; simpl.
  - split; [intros _; apply not_elem_of_nil | done].
  - rewrite not_elem_of_cons. destruct (decide (k' = k)) as [->|Hne].
    + split; [done | intros [? _]; done].
    + rewrite IH. split; [intros ?; split; [congruence | done] | tauto].
Qed.

Lemma Put_fresh o k r : own o k = None → Put o k r = o ++ [(k, r)].
Proof.
  induction o as [|[k' r'] o IH]; simpl; [done|].
  destruct (decide (k' = k)); [done|]. intros H. by rewrite IH.
Qed.

Lemma roomMap_step_unfold o r :
  roomMap_step o r =
    if decide (room_key r ∈ o.*1 ∨ inherited (room_key r) = true)
    then o else o ++ [(room_key r, r)].
Proof.
  unfold roomMap_step, Get.
  destruct (own o (room_key r)) as [r0|] eqn:Hown; simpl.
  - assert (room_key r ∈ o.*1) as Hin.
    { destruct (decide (room_key r ∈ o.*1)) as [?|Hn]; [done|].
      apply own_None in Hn. congruence. }
    destruct (decide _) as [_|Hn]; [done | tauto].
  - pose proof (proj1 (own_None o _) Hown) as Hnin.
    destruct (inherited (room_key r)) eqn:Hinh; simpl.
    + destruct (decide _) as [_|Hn]; [done | tauto].
    + destruct (decide _) as [[?|?]|_]; [done | done |].
      by apply Put_fresh.
Qed.

Lemma roomMap_loop_from o data :
  foldl roomMap_step o data = o ++ retained (list_to_set o.*1) data.
Proof.
  revert o. induction data as [|r data IH]; intros o; simpl.
  - by rewrite app_nil_r.
  - rewrite IH, roomMap_step_unfold.
    destruct (decide (room_key r ∈ o.*1 ∨ _)) as [Hyes|Hno];
      destruct (decide (room_key r ∈ list_to_set (C:=gset string) o.*1 ∨ _))
        as [Hyes'|Hno']; [done | | |].
    + exfalso. apply Hno'. destruct Hyes as [?|?]; [left | by right].
      by apply elem_of_list_to_set.
    + exfalso. apply Hno. destruct Hyes' as [Hin|?]; [left | by right].
      by apply elem_of_list_to_set in Hin.
    + rewrite fmap_app, list_to_set_app_L, <-app_assoc. simpl.
      do 3 f_equal. set_solver.
Qed.

Lemma roomMap_loop_retained data : roomMap_loop data = retained ∅ data.
Proof. unfold roomMap_loop. by rewrite roomMap_loop_from. Qed.

Lemma retained_key seen data k r :
  (k, r) ∈ retained seen data →
  k = room_key r ∧ (k ∉ seen) ∧ inherited k = false.
Proof.
  revert seen. induction data as [|r0 data IH]; intros seen; simpl.
  - intros Hnil. by apply elem_of_nil in Hnil.
  - destruct (decide _) as [Hyes|Hno]; [by apply IH|].
    rewrite elem_of_cons. intros [[= -> ->]|Hin].
    + split; [done|]. split; [tauto|].
      destruct (inherited (room_key r0)); [tauto | done].
    + apply IH in Hin as (-> & Hnin & ?). split; [done|].
      split; [set_solver | done].
Qed.

(** A retained row is the first row of its room in the input. *)
Lemma retained_first seen data k r :
  (k, r) ∈ retained seen data →
  ∃ i, data !! i = Some r ∧
       ∀ j r', data !! j = Some r' → room_key r' = k → (i ≤ j)%nat.
Proof.
  revert seen. induction data as [|r0 data IH]; intros seen; simpl.
  - intros Hnil. by apply elem_of_nil in Hnil.
  - destruct (decide _) as [Hyes|Hno].
    + intros Hin. pose proof (retained_key _ _ _ _ Hin) as (-> & Hnin & Hinh).
      destruct (IH _ Hin) as (i & Hi & Hfirst). exists (S i). split; [exact Hi|].
      intros [|j] r' Hj Hk; simpl in *.
      * injection Hj as ->. rewrite Hk in Hyes.
        destruct Hyes as [?|?]; [done | congruence].
      * apply le_n_S. by eapply Hfirst.
    + rewrite elem_of_cons. intros [[= -> ->]|Hin].
      * exists 0%nat. split; [done|]. intros; lia.
      * pose proof (retained_key _ _ _ _ Hin) as (-> & Hnin & Hinh).
        destruct (IH _ Hin) as (i & Hi & Hfirst). exists (S i). split; [exact Hi|].
        intros [|j] r' Hj Hk; simpl in *.
        -- injection Hj as ->. rewrite Hk in Hnin. set_solver.
        -- apply le_n_S. by eapply Hfirst.
Qed.

(** Every room of the input that is neither seen nor shadowed by an
    inherited member gets a retained row. *)
Lemma retained_complete seen data r :
  r ∈ data → room_key r ∉ seen → inherited (room_key r) = false →
  ∃ r0, (room_key r, r0) ∈ retained seen data.
Proof.
  revert seen. induction data as [|r0 data IH]; intros seen; simpl.
  - intros Hnil. by apply elem_of_nil in Hnil.
  - intros Hin Hseen Hinh. destruct (decide _) as [Hyes|Hno].
    + apply elem_of_cons in Hin as [->|Hin]; [|by apply IH].
      destruct Hyes; [done | congruence].
    + destruct (decide (room_key r = room_key r0)) as [Heq|Hne].
      * exists r0. rewrite Heq. apply elem_of_cons. by left.
      * apply elem_of_cons in Hin as [->|Hin]; [done|].
        destruct (IH ({[room_key r0]} ∪ seen) Hin) as [r1 H1];
          [set_solver | done |].
        exists r1. apply elem_of_cons. by right.
Qed.

Lemma retained_NoDup seen data : NoDup (retained seen data).*1.
Proof.
  revert seen. induction data as [|r0 data IH]; intros seen; simpl.
  - constructor.
  - destruct (decide _) as [Hyes|Hno]; [apply IH|].
    simpl. constructor; [|apply IH].
    intros Hdup. apply list_elem_of_fmap in Hdup as ((k & r) & Hk & Hin).
    simpl in Hk. subst k.
    apply retained_key in Hin as (_ & Hnin & _). set_solver.
Qed.

End grouping.

(** Membership in the returned array is membership in the object. *)
Lemma index_entries_elem (o : obj) (i : N) (r : row) :
  (i, r) ∈ index_entries o ↔ ∃ k, (k, r) ∈ o ∧ array_index k = Some i.
Proof.
  unfold index_entries. rewrite list_elem_of_omap. split.
  - intros ([k r'] & Hin & Heq). simpl in Heq.
    destruct (array_index k) as [i'|] eqn:Hk; simpl in Heq; [|done].
    injection Heq as -> ->. by exists k.
  - intros (k & Hin & Hk). exists (k, r). split; [done|]. simpl. by rewrite Hk.
Qed.

Lemma string_entries_elem (o : obj) (k : string) (r : row) :
  (k, r) ∈ string_entries o ↔ (k, r) ∈ o ∧ array_index k = None.
Proof. unfold string_entries. rewrite list_elem_of_filter. simpl. tauto. Qed.

Lemma Object_values_elem (o : obj) (r : row) :
  r ∈ Object_values o ↔ ∃ k, (k, r) ∈ o.
Proof.
  unfold Object_values. rewrite elem_of_app, !list_elem_of_fmap. split.
  - intros [([i r'] & -> & Hin)|([k r'] & -> & Hin)]; simpl.
    + rewrite merge_sort_Permutation in Hin.
      apply index_entries_elem in Hin as (k & Hin & _). by exists k.
    + apply string_entries_elem in Hin as [Hin _]. by exists k.
  - intros (k & Hin). destruct (array_index k) as [i|] eqn:Hk.
    + left. exists (i, r). split; [done|].
      rewrite merge_sort_Permutation. apply index_entries_elem. by exists k.
    + right. exists (k, r). split; [done|]. by apply string_entries_elem.
Qed.

Lemma latestPerRoom_elem (data : list row) (r : row) :
  r ∈ latestPerRoom data ↔ (room_key r, r) ∈ retained ∅ data.
Proof.
  unfold latestPerRoom. rewrite Object_values_elem, roomMap_loop_retained.
  split.
  - intros (k & Hin). by destruct (retained_key _ _ _ _ Hin) as (-> & _).
  - intros Hin. by exists (room_key r).
Qed.

(** The grouping only selects: every returned record is one of the rows
    received, unchanged. *)
Lemma latestPerRoom_subseteq (data : list row) (r : row) :
  r ∈ latestPerRoom data → r ∈ data.
Proof.
  rewrite latestPerRoom_elem. intros Hin.
  destruct (retained_first _ _ _ _ Hin) as (i & Hi & _).
  apply list_elem_of_lookup. by exists i.
Qed.

Lemma StronglySorted_lookup {A} (R : relation A) (l : list A) i j x y :
  StronglySorted R l → l !! i = Some x → l !! j = Some y → (i < j)%nat →
  R x y.
Proof.
  intros Hl. revert i j. induction Hl as [|a l Hl IH Hall]; intros i j.
  - intros Hnil. by rewrite lookup_nil in Hnil.
  - destruct i as [|i], j as [|j]; simpl; try lia.
    + intros [= ->] Hj _. rewrite Forall_forall in Hall.
      apply Hall, list_elem_of_lookup. by exists j.
    + intros Hi Hj Hlt. apply (IH i j); [done | done | lia].
Qed.

(** ** Latest reading per room *)

(** C1. When the rows arrive newest first, every room whose identifier is
    not shadowed by an inherited member has a retained record; the retained
    record is the first row of its room in input order, and it was observed
    no earlier than any other row of that room.  Among rows of a room with
    equal timestamps the first one is therefore the one kept. *)
Theorem latest_wins (env : host) (data : list row) :
  newest_first env data →
  (∀ r', r' ∈ data → inherited (room_key r') = false →
     ∃ r, r ∈ latestPerRoom data ∧ room_key r = room_key r') ∧
  (∀ r, r ∈ latestPerRoom data →
     ∃ i, data !! i = Some r ∧
       ∀ j r', data !! j = Some r' → room_key r' = room_key r →
         (i ≤ j)%nat ∧ (i ≠ j → at_least_as_recent env r r')).
Proof.
  intros Hsorted. split.
  - intros r' Hin Hinh.
    destruct (retained_complete ∅ data r' Hin) as [r Hr];
      [apply not_elem_of_empty | done |].
    exists r. pose proof (retained_key _ _ _ _ Hr) as (Hk & _).
    split; [|done]. apply latestPerRoom_elem. by rewrite <-Hk.
  - intros r Hr. apply latestPerRoom_elem in Hr.
    destruct (retained_first _ _ _ _ Hr) as (i & Hi & Hfirst).
    exists i. split; [done|]. intros j r' Hj Hk.
    pose proof (Hfirst j r' Hj Hk) as Hle. split; [done|].
    intros Hne. apply (StronglySorted_lookup _ data i j); [done..|lia].
Qed.

Lemma latest_wins_witness :
  newest_first sample_host sample_latest_wins_data ∧
  (∀ r, r ∈ latestPerRoom sample_latest_wins_data →
     ∃ i, sample_latest_wins_data !! i = Some r ∧
       ∀ j r', sample_latest_wins_data !! j = Some r' →
         room_key r' = room_key r →
         (i ≤ j)%nat ∧ (i ≠ j → at_least_as_recent sample_host r r')).
Proof.
  assert (newest_first sample_host sample_latest_wins_data) as Hsorted.
  { unfold newest_first, sample_latest_wins_data.
    repeat match goal with
           | |- StronglySorted _ _ => constructor
           | |- Forall _ _ => constructor
           | |- at_least_as_recent _ _ _ => vm_compute; discriminate
           end. }
  split; [exact Hsorted|].
  apply (latest_wins sample_host sample_latest_wins_data Hsorted).
Defined.


Lemma latestPerRoom_singleton_inherited (r : row) :
  inherited (room_key r) = true → latestPerRoom [r] = [].
Proof.
  intros Hinh. unfold latestPerRoom, roomMap_loop. simpl.
  unfold roomMap_step, Get. simpl. by rewrite Hinh.
Qed.

(** ** Rooms named like an inherited member *)

(** C10. A row whose room identifier is the name of a member inherited from
    [Object.prototype] is never retained: it is not in the returned list,
    no returned record belongs to its room, and a response made of that row
    alone yields the empty list. *)
Theorem inherited_name_never_retained (data : list row) (r : row) :
  room_key r ∈ ObjectPrototype_names →
  (r ∉ latestPerRoom data) ∧
  (∀ r', r' ∈ latestPerRoom data → room_key r' ≠ room_key r) ∧
  latestPerRoom [r] = [].
Proof.
  intros Hname.
  assert (inherited (room_key r) = true) as Hinh
    by (unfold inherited; by apply bool_decide_eq_true).
  split; [|split].
  - intros Hin. apply latestPerRoom_elem, retained_key in Hin as (_ & _ & ?).
    congruence.
  - intros r' Hin Hk.
    apply latestPerRoom_elem, retained_key in Hin as (_ & _ & ?).
    congruence.
  - by apply latestPerRoom_singleton_inherited.
Qed.

Lemma inherited_name_never_retained_witness :
  (row_toString ∉ latestPerRoom [row_toString; row_toString]) ∧
  (∀ r', r' ∈ latestPerRoom [row_toString; row_toString] →
     room_key r' ≠ room_key row_toString) ∧
  latestPerRoom [row_toString] = [].
Proof.
  apply (inherited_name_never_retained [row_toString; row_toString]).
  vm_compute. repeat (first [apply list_elem_of_here | apply list_elem_of_further]).
Defined.

(** ** Counts are not validated *)




(** ** Only people_count is read *)






(** ** Order of the returned array *)

Global Instance index_le_trans : Transitive index_le.
Proof. intros x y z. unfold index_le. lia. Qed.

Global Instance index_le_total : Total index_le.
Proof. intros x y. unfold index_le. lia. Qed.

Lemma first_seen_skip (k : string) (seen : gset string) (records : list row) :
  Forall (λ r, room_key r ≠ k) records →
  first_seen ({[k]} ∪ seen) records = first_seen seen records.
Proof.
  intros Hall. revert seen.
  induction Hall as [|r records Hr Hall IH]; intros seen; simpl; [done|].
  destruct (decide (room_key r ∈ seen)) as [Hin|Hnin].
  - rewrite decide_True by set_solver. apply IH.
  - rewrite decide_False by set_solver. f_equal.
    rewrite <-(IH ({[room_key r]} ∪ seen)). f_equal. set_solver.
Qed.

(** The properties that are not array indices hold the plain rooms in the
    order they were first seen. *)
Lemma string_entries_retained (seen : gset string) (data : list row) :
  (string_entries (retained seen data)).*2
  = first_seen seen (filter plain_room data).
Proof.
  revert seen. induction data as [|r data IH]; intros seen; [done|].
  simpl retained. rewrite filter_cons.
  destruct (decide (room_key r ∈ seen ∨ inherited (room_key r) = true))
    as [Hyes|Hno].
  - rewrite IH. destruct (decide (plain_room r)) as [[_ Hinh]|_]; [|done].
    simpl. rewrite decide_True; [done|].
    destruct Hyes as [?|?]; [done | congruence].
  - assert (room_key r ∉ seen) as Hnin by tauto.
    assert (inherited (room_key r) = false) as Hinh
      by (destruct (inherited (room_key r)); tauto).
    unfold string_entries. rewrite filter_cons. simpl.
    destruct (array_index (room_key r)) as [i|] eqn:Hk.
    + rewrite decide_False by done.
      rewrite decide_False by (unfold plain_room, room_index; rewrite Hk; by intros [? _]).
      fold (string_entries (retained ({[room_key r]} ∪ seen) data)).
      rewrite IH. apply first_seen_skip.
      apply Forall_forall. intros r' Hr' Heq.
      apply list_elem_of_filter in Hr' as [[Hplain _] _].
      unfold room_index in Hplain. rewrite Heq in Hplain. congruence.
    + rewrite decide_True by done.
      rewrite decide_True by (unfold plain_room, room_index; by rewrite Hk).
      fold (string_entries (retained ({[room_key r]} ∪ seen) data)).
      simpl. rewrite decide_False by done. f_equal. apply IH.
Qed.

Lemma StronglySorted_fmap_elem {A B} (R : relation A) (S : relation B)
    (f : A → B) (l : list A) :
  (∀ x y, x ∈ l → y ∈ l → R x y → S (f x) (f y)) →
  StronglySorted R l → StronglySorted S (f <$> l).
Proof.
  intros HRS Hl. induction Hl as [|a l Hl IH Hall]; csimpl; constructor.
  - apply IH. intros x y Hx Hy. apply HRS; by apply list_elem_of_further.
  - apply Forall_fmap, Forall_forall. intros y Hy. simpl.
    apply HRS; [apply list_elem_of_here | by apply list_elem_of_further |].
    rewrite Forall_forall in Hall. by apply Hall.
Qed.

Lemma array_index_Some (k : string) (n : N) :
  array_index k = Some n → k = pretty n.
Proof.
  unfold array_index. destruct k as [|c k]; [done|].
  destruct (digits (String c k) 0) as [m|]; simpl; [|done].
  destruct (decide _) as [[Hk _]|]; [|done]. by intros [= <-].
Qed.

Lemma NoDup_fst_functional (o : obj) (k : string) (r1 r2 : row) :
  NoDup o.*1 → (k, r1) ∈ o → (k, r2) ∈ o → r1 = r2.
Proof.
  induction o as [|[k' r'] o IH]; simpl; intros Hnd H1 H2.
  - by apply elem_of_nil in H1.
  - apply NoDup_cons in Hnd as [Hnin Hnd].
    apply elem_of_cons in H1 as [H1|H1]; apply elem_of_cons in H2 as [H2|H2].
    + congruence.
    + injection H1 as -> ->. destruct Hnin.
      apply list_elem_of_fmap. by exists (k', r2).
    + injection H2 as -> ->. destruct Hnin.
      apply list_elem_of_fmap. by exists (k', r1).
    + by apply IH.
Qed.

Lemma inherited_not_index (k : string) :
  inherited k = true → array_index k = None.
Proof.
  unfold inherited, ObjectPrototype_names. intros Hk.
  apply bool_decide_eq_true in Hk.
  repeat (apply elem_of_cons in Hk as [->|Hk]; [by vm_compute|]).
  by apply elem_of_nil in Hk.
Qed.

(** The properties that are array indices hold the rooms so named, in the
    order they were first seen (before [Object.values] sorts them). *)
Lemma index_entries_retained (seen : gset string) (data : list row) :
  (index_entries (retained seen data)).*2
  = first_seen seen (filter indexed_room data).
Proof.
  revert seen. induction data as [|r data IH]; intros seen; [done|].
  simpl retained. rewrite filter_cons.
  destruct (decide (room_key r ∈ seen ∨ inherited (room_key r) = true))
    as [Hyes|Hno].
  - rewrite IH. destruct (decide (indexed_room r)) as [[i Hidx]|_]; [|done].
    simpl. rewrite decide_True; [done|].
    destruct Hyes as [?|Hinh]; [done|].
    apply inherited_not_index in Hinh. unfold room_index in Hidx. congruence.
  - assert (room_key r ∉ seen) as Hnin by tauto.
    unfold index_entries. simpl.
    destruct (array_index (room_key r)) as [i|] eqn:Hk; simpl.
    + rewrite decide_True by (unfold indexed_room, room_index; by rewrite Hk).
      simpl. rewrite decide_False by done. f_equal. apply IH.
    + rewrite decide_False
        by (unfold indexed_room, room_index; rewrite Hk; by intros [? ?]).
      fold (index_entries (retained ({[room_key r]} ∪ seen) data)).
      rewrite IH. apply first_seen_skip.
      apply Forall_forall. intros r' Hr' Heq.
      apply list_elem_of_filter in Hr' as [[i Hidx] _].
      unfold room_index in Hidx. rewrite Heq in Hidx. congruence.
Qed.

Lemma index_entries_NoDup (o : obj) :
  NoDup o.*1 → NoDup (index_entries o).*1.
Proof.
  unfold index_entries.
  induction o as [|[k r] o IH]; simpl; intros Hnd; [constructor|].
  apply NoDup_cons in Hnd as [Hnin Hnd].
  destruct (array_index k) as [i|] eqn:Hk; simpl; [|by apply IH].
  constructor; [|by apply IH].
  intros Hin. apply list_elem_of_fmap in Hin as ([i' r'] & Hi & Hin).
  simpl in Hi. subst i'.
  apply (index_entries_elem o i r') in Hin as (k' & Hin & Hk').
  apply array_index_Some in Hk, Hk'. subst k k'.
  apply Hnin, list_elem_of_fmap. by exists (pretty i, r').
Qed.

Lemma StronglySorted_index_strict (l : list (N * row)) :
  StronglySorted index_le l → NoDup l.*1 →
  StronglySorted (λ x y, (x.1 < y.1)%N) l.
Proof.
  induction 1 as [|x l Hl IH Hall]; simpl; intros Hnd; constructor.
  - apply IH. by apply NoDup_cons in Hnd as [_ ?].
  - apply NoDup_cons in Hnd as [Hnin _].
    apply Forall_forall. intros y Hy. rewrite Forall_forall in Hall.
    pose proof (Hall y Hy) as Hle. unfold index_le in Hle.
    assert (x.1 ≠ y.1); [|lia].
    intros Heq. apply Hnin. rewrite Heq. by apply list_elem_of_fmap_2.
Qed.

(** C7, as the script has it.  The returned array starts with the rooms whose
    identifier is an array index, each of them once, in strictly ascending
    numeric order; the rooms with a plain identifier follow, in the order
    they were first seen.  The first part is the first-seen rows of the
    indexed rooms, rearranged: sortedness then fixes its order, so the two
    parts determine the whole array. *)
Theorem result_order (data : list row) :
  ∃ indexed,
    latestPerRoom data = indexed ++ first_seen ∅ (filter plain_room data) ∧
    Forall (λ r, r ∈ data ∧ is_Some (room_index r)) indexed ∧
    StronglySorted ascending_index indexed ∧
    indexed ≡ₚ first_seen ∅ (filter indexed_room data) ∧
    StronglySorted strictly_ascending_index indexed.
Proof.
  exists (merge_sort index_le (index_entries (roomMap_loop data))).*2.
  assert (∀ x, x ∈ merge_sort index_le (index_entries (roomMap_loop data)) →
            x.2 ∈ data ∧ room_index x.2 = Some x.1) as Helem.
  { intros [i r] Hin. rewrite merge_sort_Permutation in Hin.
    apply index_entries_elem in Hin as (k & Hin & Hk).
    rewrite roomMap_loop_retained in Hin.
    pose proof (retained_key _ _ _ _ Hin) as (-> & _). simpl. split.
    - apply latestPerRoom_subseteq. by apply latestPerRoom_elem.
    - done. }
  split; [|split; [|split; [|split]]].
  - unfold latestPerRoom, Object_values. f_equal.
    rewrite roomMap_loop_retained. apply string_entries_retained.
  - apply Forall_fmap, Forall_forall. intros x Hx. simpl.
    destruct (Helem x Hx) as [? Hidx]. split; [done|]. by rewrite Hidx.
  - apply (StronglySorted_fmap_elem index_le); [|apply StronglySorted_merge_sort; apply _].
    intros x y Hx Hy Hle. unfold ascending_index.
    destruct (Helem x Hx) as [_ ->], (Helem y Hy) as [_ ->]. exact Hle.
  - rewrite merge_sort_Permutation, roomMap_loop_retained.
    by rewrite index_entries_retained.
  - apply (StronglySorted_fmap_elem (λ x y, (x.1 < y.1)%N)).
    + intros x y Hx Hy Hlt. unfold strictly_ascending_index.
      destruct (Helem x Hx) as [_ ->], (Helem y Hy) as [_ ->]. exact Hlt.
    + apply StronglySorted_index_strict;
        [apply StronglySorted_merge_sort; apply _|].
      rewrite merge_sort_Permutation, roomMap_loop_retained.
      apply index_entries_NoDup, retained_NoDup.
Qed.

(** The statement fixes the output: for rooms 201 and 101, seen in that
    order, it leaves no other array than 101 followed by 201. *)
Lemma result_order_witness :
  latestPerRoom [row_201; row_101] = [row_101; row_201].
Proof.
  destruct (result_order [row_201; row_101])
    as (indexed & -> & _ & _ & Hperm & Hsorted).
  assert (filter plain_room [row_201; row_101] = []) as -> by (by vm_compute).
  assert (first_seen ∅ (filter indexed_room [row_201; row_101])
          = [row_201; row_101]) as Hfirst by (by vm_compute).
  rewrite Hfirst in Hperm. simpl. rewrite app_nil_r.
  symmetry in Hperm. apply Permutation_length_2_inv in Hperm as [->| ->].
  - exfalso. apply StronglySorted_inv in Hsorted as [_ Hall].
    apply Forall_inv in Hall. vm_compute in Hall. discriminate.
  - done.
Defined.

(** Room 201 is seen before room 101, and comes out after it. *)
Lemma numeric_rooms_reordered :
  first_seen ∅ [row_201; row_101] = [row_201; row_101] ∧
  latestPerRoom [row_201; row_101] = [row_101; row_201] ∧
  latestPerRoom [row_201; row_101] ≠ first_seen ∅ [row_201; row_101].
Proof.
  assert (latestPerRoom [row_201; row_101] = [row_101; row_201]) as Hout
    by (vm_compute; reflexivity).
  split; [by vm_compute|]. split; [done|].
  rewrite Hout. intros Heq.
  apply (f_equal (λ rooms, room_id <$> rooms)) in Heq.
  vm_compute in Heq. discriminate.
Qed.

(** ** Occupancy status *)

(** C5. A count of 0 is "empty", a count from 1 to 5 is "moderate", a count
    above 5 is "full"; the three cases cover the non-negative integers and
    exclude one another, and a larger count never gets a lower status. *)
Theorem occupancy_classification (env : host) :
  (∀ n, 0 ≤ n →
     getOccupancyStatus env (JNum n) =
       if decide (n = 0) then {| status := "empty"; color := "#0369a1" |}
       else if decide (n ≤ 5) then {| status := "moderate"; color := "#92400e" |}
       else {| status := "full"; color := "#991b1b" |}) ∧
  (∀ a b, 0 ≤ a → a < b →
     (tier_rank (status (getOccupancyStatus env (JNum a)))
      ≤ tier_rank (status (getOccupancyStatus env (JNum b))))%nat).
Proof.
  assert (∀ n,
    getOccupancyStatus env (JNum n) =
      if decide (n = 0) then {| status := "empty"; color := "#0369a1" |}
      else if decide (n ≤ 5) then {| status := "moderate"; color := "#92400e" |}
      else {| status := "full"; color := "#991b1b" |}) as Hcases.
  { intros n. unfold getOccupancyStatus. simpl.
    destruct (decide (n = 0)) as [->|Hne]; [done|].
    rewrite bool_decide_eq_false_2 by done.
    destruct (decide (n ≤ 5)).
    - by rewrite bool_decide_eq_true_2.
    - by rewrite bool_decide_eq_false_2. }
  split; [intros n _; apply Hcases|].
  intros a b Ha Hab. rewrite !Hcases.
  repeat case_decide; simpl; try lia; unfold tier_rank; simpl; lia.
Qed.

Lemma occupancy_classification_witness :
  getOccupancyStatus sample_host (JNum 0)
    = {| status := "empty"; color := "#0369a1" |} ∧
  getOccupancyStatus sample_host (JNum 5)
    = {| status := "moderate"; color := "#92400e" |} ∧
  getOccupancyStatus sample_host (JNum 6)
    = {| status := "full"; color := "#991b1b" |} ∧
  (tier_rank (status (getOccupancyStatus sample_host (JNum 5)))
   ≤ tier_rank (status (getOccupancyStatus sample_host (JNum 6))))%nat.
Proof.
  destruct (occupancy_classification sample_host) as [Hcases Hmono].
  split; [apply (Hcases 0); lia|].
  split; [apply (Hcases 5); lia|].
  split; [apply (Hcases 6); lia|].
  apply (Hmono 5 6); lia.
Defined.

(** ** Relative timestamps *)

Lemma formatTimestamp_valid (env : host) (now : Z) (iso : string) (t : Z) :
  DateParse env iso = Some t →
  formatTimestamp env now (JStr iso) =
    if decide (now - t < 60000) then pretty ((now - t) / 1000) +:+ "s ago"
    else if decide (now - t < 3600000) then
      pretty ((now - t) / 60000) +:+ "m ago"
    else toLocaleTimeString_2digit env t.
Proof.
  intros Hparse. unfold formatTimestamp. simpl. rewrite Hparse. simpl.
  assert ((now - t) / 60000 < 1 ↔ now - t < 60000) as H1.
  { split; intros H.
    - apply Z.nle_gt. intros Hle.
      apply (Z.div_le_mono _ _ 60000) in Hle; [|lia].
      change (60000 / 60000) with 1 in Hle. lia.
    - apply Z.div_lt_upper_bound; lia. }
  assert ((now - t) / 60000 < 60 ↔ now - t < 3600000) as H60.
  { split; intros H.
    - apply Z.nle_gt. intros Hle.
      apply (Z.div_le_mono _ _ 60000) in Hle; [|lia].
      change (3600000 / 60000) with 60 in Hle. lia.
    - apply Z.div_lt_upper_bound; lia. }
  destruct (decide (now - t < 60000)) as [Hs|Hs].
  - rewrite bool_decide_eq_true_2 by (by apply H1). done.
  - rewrite bool_decide_eq_false_2 by (by rewrite H1).
    destruct (decide (now - t < 3600000)) as [Hm|Hm].
    + rewrite bool_decide_eq_true_2 by (by apply H60). done.
    + rewrite bool_decide_eq_false_2 by (by rewrite H60). done.
Qed.

(** An observation five seconds ahead of the clock is labelled with a
    negative duration. *)
Lemma future_timestamp_negative_label :
  DateParse sample_host "2024-05-01T10:00:05+00:00" = Some 1714557605000 ∧
  formatTimestamp sample_host 1714557600000 (JStr "2024-05-01T10:00:05+00:00")
    = "-5s ago".
Proof. vm_compute. done. Qed.

(** A string that is not a date is not labelled "Unknown". *)
Lemma malformed_timestamp_label :
  DateParse sample_host "yesterday-ish" = None ∧
  formatTimestamp sample_host 1714557600000 (JStr "yesterday-ish")
    = "Invalid Date".
Proof. vm_compute. done. Qed.

(** C8, as the script has it.  For an observation that lies in the future
    the label is the floor of the (negative) age in seconds followed by
    "s ago", so a negative number of seconds; the formatter is a total
    function and throws nothing. *)
Theorem future_timestamp_label (env : host) (now : Z) (iso : string) (t : Z) :
  DateParse env iso = Some t →
  now < t →
  formatTimestamp env now (JStr iso) = pretty ((now - t) / 1000) +:+ "s ago" ∧
  (now - t) / 1000 < 0.
Proof.
  intros Hparse Hfuture. rewrite (formatTimestamp_valid env now iso t Hparse).
  rewrite decide_True by lia. split; [done|].
  apply Z.div_lt_upper_bound; lia.
Qed.

Lemma future_timestamp_label_witness :
  formatTimestamp sample_host 1714557600000 (JStr "2024-05-01T10:00:05+00:00")
    = pretty ((1714557600000 - 1714557605000) / 1000) +:+ "s ago" ∧
  (1714557600000 - 1714557605000) / 1000 < 0.
Proof.
  apply (future_timestamp_label sample_host); [reflexivity | lia].
Defined.

(** The label does not tell a stale observation from a fresh one: an age
    of exactly five minutes and an age one millisecond above both read
    "5m ago", so no flag read off the formatter's result is true exactly
    when the age exceeds five minutes.  Ten minutes read "10m ago". *)
Lemma no_staleness_flag :
  formatTimestamp sample_host (1714557600000 + 600000)
    (JStr "2024-05-01T10:00:00+00:00") = "10m ago" ∧
  ¬ ∃ isStale : string → bool,
      ∀ now,
        isStale (formatTimestamp sample_host now
                   (JStr "2024-05-01T10:00:00+00:00")) = true
        ↔ 300000 < now - 1714557600000.
Proof.
  split; [by vm_compute|].
  intros [isStale Hflag].
  pose proof (Hflag (1714557600000 + 300000)) as Hfresh.
  pose proof (Hflag (1714557600000 + 300001)) as Hstale.
  assert (formatTimestamp sample_host (1714557600000 + 300000)
            (JStr "2024-05-01T10:00:00+00:00") = "5m ago") as E1
    by (by vm_compute).
  assert (formatTimestamp sample_host (1714557600000 + 300001)
            (JStr "2024-05-01T10:00:00+00:00") = "5m ago") as E2
    by (by vm_compute).
  rewrite E1 in Hfresh. rewrite E2 in Hstale.
  assert (isStale "5m ago" = true) as Htrue by (apply Hstale; lia).
  apply Hfresh in Htrue. lia.
Qed.

(** C9, as the script has it.  The formatter returns a label and nothing
    else.  For a valid observation the label is the whole seconds of the
    age below one minute, the whole minutes below one hour, and the local
    time of day of the observation from then on. *)
Theorem relative_label (env : host) (now : Z) (iso : string) (t : Z) :
  DateParse env iso = Some t →
  formatTimestamp env now (JStr iso) =
    if decide (now - t < 60000) then pretty ((now - t) / 1000) +:+ "s ago"
    else if decide (now - t < 3600000) then
      pretty ((now - t) / 60000) +:+ "m ago"
    else toLocaleTimeString_2digit env t.
Proof. apply formatTimestamp_valid. Qed.

Lemma relative_label_witness :
  formatTimestamp sample_host (1714557600000 + 600000)
    (JStr "2024-05-01T10:00:00+00:00") = "10m ago".
Proof.
  rewrite (relative_label sample_host _ _ 1714557600000) by reflexivity.
  by vm_compute.
Defined.

(** ** Refreshing the page *)

Lemma loadRoomData_resume_idle env now outcome p :
  awaiting p = [] → idle (loadRoomData_resume env now outcome p).
Proof. intros Hnone. by split. Qed.

Lemma step_one_or_none env p e : one_or_none p → one_or_none (step env p e).
Proof.
  intros [[Hflag Hnone]|(Hflag & t & Hone)]; destruct e as [|i resp now]; simpl.
  - right. unfold loadRoomData. rewrite Hflag. simpl. split; [done|].
    rewrite Hnone. by eexists.
  - rewrite Hnone. simpl. by left.
  - right. unfold loadRoomData. rewrite Hflag. split; [done|]. by exists t.
  - rewrite Hone. destruct i as [|i]; simpl.
    + left. destruct t; apply loadRoomData_resume_idle; simpl; by rewrite Hone.
    + right. split; [done|]. by exists t.
Qed.

Lemma run_one_or_none env p events :
  one_or_none p → one_or_none (run env p events).
Proof.
  revert p. induction events as [|e events IH]; intros p Hp; simpl; [done|].
  apply IH. by apply step_one_or_none.
Qed.

(** C2. In every state the page reaches from an idle one, at most one call
    of [loadRoomData] is suspended, and the flag is up exactly then.  While
    it is up a further call changes nothing, so two calls in a row send one
    query.  When the awaited promise settles, however it does, the flag is
    down and no call is left suspended, and the next call sends a query
    again. *)
Theorem at_most_one_in_flight (env : host) (p : page) (events : list event) :
  idle p →
  let q := run env p events in
  (length (awaiting q) ≤ 1)%nat ∧
  (isLoading q = true ↔ awaiting q ≠ []) ∧
  (isLoading q = true → loadRoomData q = q) ∧
  (isLoading q = false → supabaseClient q = true →
     queries (run env q [Refresh; Refresh]) = S (queries q) ∧
     awaiting (run env q [Refresh; Refresh]) = [AwaitResponse]) ∧
  (∀ i resp now, is_Some (awaiting q !! i) →
     idle (step env q (Settle i resp now)) ∧
     queries (step env q (Settle i resp now)) = queries q ∧
     (supabaseClient q = true →
        queries (run env q [Settle i resp now; Refresh]) = S (queries q))).
Proof.
  intros Hidle q.
  assert (one_or_none q) as Hq by (apply run_one_or_none; by left).
  split; [|split; [|split; [|split]]].
  - destruct Hq as [[_ ->]|(_ & t & ->)]; simpl; lia.
  - destruct Hq as [[Hflag ->]|(Hflag & t & ->)]; rewrite Hflag; split; done.
  - intros Hflag. unfold loadRoomData. by rewrite Hflag.
  - intros Hflag Hclient.
    destruct Hq as [[_ Hnone]|(Hup & _)]; [|congruence].
    simpl. unfold loadRoomData at 1. simpl.
    unfold loadRoomData. rewrite Hflag, Hclient, Hnone. simpl.
    split; [lia | done].
  - intros i resp now [t Ht].
    destruct Hq as [[_ Hnone]|(Hup & t' & Hone)].
    { rewrite Hnone in Ht. by rewrite lookup_nil in Ht. }
    assert (i = 0%nat ∧ t' = t) as [-> ->].
    { rewrite Hone in Ht. destruct i; simpl in Ht; [|by rewrite lookup_nil in Ht].
      injection Ht as ->. done. }
    simpl. rewrite Hone. simpl.
    destruct t; (split; [apply loadRoomData_resume_idle; simpl; by rewrite Hone|]);
      (split; [done|]); intros Hclient; unfold loadRoomData; simpl;
      rewrite Hclient; simpl; lia.
Qed.

Lemma at_most_one_in_flight_witness :
  let q := run sample_host connected_page [Refresh; Refresh; Refresh] in
  (length (awaiting q) ≤ 1)%nat ∧
  queries q = 1%nat ∧
  loadRoomData q = q ∧
  idle (step sample_host q (Settle 0 (Rejects "Failed to fetch") 0)).
Proof.
  pose proof (at_most_one_in_flight sample_host connected_page
                [Refresh; Refresh; Refresh]) as Hthm.
  destruct Hthm as (Hlen & _ & Hnoop & _ & Hsettle); [by split|].
  split; [exact Hlen|]. split; [reflexivity|].
  split; [apply Hnoop; reflexivity|].
  apply (Hsettle 0%nat (Rejects "Failed to fetch") 0). by eexists.
Defined.

(** ** A refresh that fails *)

(** A failed refresh empties the grid the previous refresh had filled. *)
Lemma failed_refresh_clears_grid :
  card_room <$> roomGrid (document loaded_page) = [JStr "Lobby"; JStr "Lab"] ∧
  roomGrid
    (document
       (run sample_host loaded_page
          [Refresh; Settle 0 (Rejects "Failed to fetch") 1714557631000]))
  = [].
Proof. vm_compute. done. Qed.

(** C6, as the script has it.  When the awaited query fails, by rejecting
    or by resolving with an error, [loadRoomData] catches the failure: the
    status reads "Failed to load data", the error message is shown with the
    failure's text, the flag is down and the button enabled again, no
    further query is sent, and the grid is emptied with the empty state
    shown in its place. *)
Theorem failed_refresh (env : host) (p : page) (i : nat) (resp : response)
    (message : string) (now : Z) :
  awaiting p !! i = Some AwaitResponse →
  fetchLatestRoomCounts_resume resp = inl message →
  let q := step env p (Settle i resp now) in
  isLoading q = false ∧
  queries q = queries p ∧
  awaiting q = delete i (awaiting p) ∧
  statusText (document q) = "Failed to load data" ∧
  statusText_color (document q) = "#ef4444" ∧
  errorMessage_hidden (document q) = false ∧
  errorMessage_text (document q) = "Failed to load room data: " +:+ message ∧
  refreshBtn_disabled (document q) = false ∧
  loadingIndicator_hidden (document q) = true ∧
  emptyState_hidden (document q) = false ∧
  roomGrid (document q) = [].
Proof.
  intros Htask Hfail q. subst q. simpl. rewrite Htask, Hfail. simpl.
  repeat split.
Qed.

Lemma failed_refresh_witness :
  let q := step sample_host (loadRoomData loaded_page)
             (Settle 0 (ReturnsError "relation does not exist") 1714557631000) in
  isLoading q = false ∧
  errorMessage_text (document q)
    = "Failed to load room data: relation does not exist" ∧
  roomGrid (document q) = [].
Proof.
  pose proof (failed_refresh sample_host (loadRoomData loaded_page) 0
                (ReturnsError "relation does not exist")
                "relation does not exist" 1714557631000) as Hthm.
  destruct Hthm as (Hflag & _ & _ & _ & _ & _ & Htext & _ & _ & _ & Hgrid);
    [reflexivity | reflexivity |].
  split; [exact Hflag|]. split; [exact Htext | exact Hgrid].
Defined.

(** * Further properties of the script *)

(** ** The per-room object after the loop *)

Lemma own_retained (seen : gset string) (data : list row) (k : string) :
  own (retained seen data) k =
    if decide (k ∈ seen ∨ inherited k = true) then None
    else head (filter (λ r, room_key r = k) data).
Proof.
  revert seen. induction data as [|r data IH]; intros seen; simpl.
  - by destruct (decide _).
  - rewrite filter_cons.
    destruct (decide (room_key r ∈ seen ∨ inherited (room_key r) = true))
      as [Hyes|Hno].
    + rewrite IH. destruct (decide (k ∈ seen ∨ inherited k = true)) as [|Hk];
        [done|].
      destruct (decide (room_key r = k)) as [<-|]; [tauto | done].
    + simpl. destruct (decide (room_key r = k)) as [<-|Hne].
      * by rewrite decide_False by done.
      * rewrite IH.
        destruct (decide (k ∈ seen ∨ inherited k = true)) as [Hk|Hk].
        -- rewrite decide_True; [done|]. destruct Hk; [left; set_solver | by right].
        -- rewrite decide_False; [done|]. intros [Hin|?]; [|tauto].
           apply Hk. left. set_solver.
Qed.

(** After the loop, [roomMap] owns under each room key the first row of
    that room in the response; under the name of an inherited member, and
    under the key of a room that is not in the response, it owns nothing. *)
Theorem roomMap_holds_first_row (data : list row) (k : string) :
  own (roomMap_loop data) k =
    if inherited k then None
    else head (filter (λ r, room_key r = k) data).
Proof.
  rewrite roomMap_loop_retained, own_retained.
  destruct (inherited k) eqn:Hinh.
  - rewrite decide_True; [done | by right].
  - rewrite decide_False; [done|]. intros [Hin|?]; [|done].
    by apply not_elem_of_empty in Hin.
Qed.

(** ** One record per room *)

Lemma entries_Permutation (o : obj) :
  (index_entries o).*2 ++ (string_entries o).*2 ≡ₚ o.*2.
Proof.
  induction o as [|[k r] o IH]; [done|].
  unfold index_entries, string_entries in *. simpl. rewrite filter_cons. simpl.
  destruct (array_index k) as [i|] eqn:Hk; simpl.
  - constructor. exact IH.
  - rewrite <-Permutation_middle. constructor. exact IH.
Qed.

Lemma Object_values_Permutation (o : obj) : Object_values o ≡ₚ o.*2.
Proof.
  unfold Object_values. rewrite merge_sort_Permutation.
  apply entries_Permutation.
Qed.

Lemma retained_keys_fmap (seen : gset string) (data : list row) :
  room_key <$> (retained seen data).*2 = (retained seen data).*1.
Proof.
  revert seen. induction data as [|r data IH]; intros seen; simpl; [done|].
  destruct (decide _); [apply IH|]. simpl. f_equal. apply IH.
Qed.

Lemma latestPerRoom_keys_NoDup (data : list row) :
  NoDup (room_key <$> latestPerRoom data).
Proof.
  unfold latestPerRoom. rewrite Object_values_Permutation.
  rewrite roomMap_loop_retained, retained_keys_fmap.
  apply retained_NoDup.
Qed.

(** No two returned records belong to the same room. *)
Theorem one_record_per_room (data : list row) :
  NoDup (room_key <$> latestPerRoom data).
Proof. apply latestPerRoom_keys_NoDup. Qed.

Lemma retained_keys_set (seen : gset string) (data : list row) :
  list_to_set (C:=gset string) (retained seen data).*1
  = distinct_rooms data ∖ seen.
Proof.
  revert seen. unfold distinct_rooms.
  induction data as [|r data IH]; intros seen; simpl.
  - set_solver.
  - rewrite filter_cons.
    destruct (decide (room_key r ∈ seen ∨ inherited (room_key r) = true))
      as [Hyes|Hno].
    + rewrite IH. destruct (decide (inherited (room_key r) = false)); [|done].
      simpl. destruct Hyes; [set_solver | congruence].
    + assert (inherited (room_key r) = false) as Hinh
        by (destruct (inherited (room_key r)); tauto).
      rewrite decide_True by done. simpl. rewrite IH.
      apply set_eq. intros x. rewrite !elem_of_union, !elem_of_difference,
        !elem_of_union, !elem_of_singleton.
      destruct (decide (x = room_key r)) as [->|]; [|tauto].
      split; [intros _; split; [by left | tauto] | tauto].
Qed.

Lemma retained_length (seen : gset string) (data : list row) :
  (length (retained seen data) ≤ length data)%nat.
Proof.
  revert seen. induction data as [|r data IH]; intros seen; simpl; [done|].
  destruct (decide _); simpl.
  - etrans; [apply IH | lia].
  - apply le_n_S, IH.
Qed.

Lemma latestPerRoom_rooms (data : list row) :
  list_to_set (room_key <$> latestPerRoom data) = distinct_rooms data ∧
  length (latestPerRoom data) = size (distinct_rooms data) ∧
  (length (latestPerRoom data) ≤ length data)%nat.
Proof.
  assert (room_key <$> latestPerRoom data ≡ₚ (retained ∅ data).*1) as Hperm.
  { unfold latestPerRoom. rewrite Object_values_Permutation.
    by rewrite roomMap_loop_retained, retained_keys_fmap. }
  assert (list_to_set (C:=gset string) (room_key <$> latestPerRoom data)
          = distinct_rooms data) as Hset.
  { rewrite Hperm, retained_keys_set. set_solver. }
  assert (length (latestPerRoom data) = size (distinct_rooms data)) as Hlen.
  { rewrite <-Hset, size_list_to_set by apply latestPerRoom_keys_NoDup.
    by rewrite length_fmap. }
  split; [done|]. split; [done|].
  apply Permutation_length in Hperm. rewrite !length_fmap in Hperm.
  rewrite Hperm. apply retained_length.
Qed.

(** The rooms returned are the distinct room keys of the response that are
    not names of inherited members, and there are as many records as such
    rooms; in particular never more records than rows. *)
Theorem returned_rooms (data : list row) :
  list_to_set (room_key <$> latestPerRoom data) = distinct_rooms data ∧
  length (latestPerRoom data) = size (distinct_rooms data) ∧
  (length (latestPerRoom data) ≤ length data)%nat.
Proof. apply latestPerRoom_rooms. Qed.

(** ** Readings of rooms already seen *)

Lemma retained_app_known (seen : gset string) (data more : list row) :
  Forall (λ r, room_key r ∈ seen ∨ inherited (room_key r) = true
               ∨ room_key r ∈ room_key <$> data) more →
  retained seen (data ++ more) = retained seen data.
Proof.
  revert seen. induction data as [|r0 data IH]; intros seen Hmore; simpl.
  - induction Hmore as [|r more Hr _ IHmore]; simpl; [done|].
    rewrite decide_True; [done|].
    destruct Hr as [?|[?|Hin]]; [by left | by right |].
    by apply elem_of_nil in Hin.
  - destruct (decide (room_key r0 ∈ seen ∨ inherited (room_key r0) = true))
      as [Hyes|Hno].
    + apply IH. eapply Forall_impl; [exact Hmore|]. simpl.
      intros r [?|[?|Hin]]; [by left | by right; left |].
      apply elem_of_cons in Hin as [->|Hin]; [|by right; right].
      destruct Hyes; [by left | by right; left].
    + f_equal. apply IH. eapply Forall_impl; [exact Hmore|]. simpl.
      intros r [?|[?|Hin]]; [left; set_solver | by right; left |].
      apply elem_of_cons in Hin as [->|Hin]; [left; set_solver | by right; right].
Qed.

(** Rows that follow in the response and belong to rooms already met do not
    change the result: only the first row of a room counts. *)
Theorem later_readings_ignored (data more : list row) :
  (∀ r, r ∈ more → ∃ r0, r0 ∈ data ∧ room_key r0 = room_key r) →
  latestPerRoom (data ++ more) = latestPerRoom data.
Proof.
  intros Hknown. unfold latestPerRoom. rewrite !roomMap_loop_retained.
  f_equal. apply retained_app_known, Forall_forall. intros r Hr.
  destruct (Hknown r Hr) as (r0 & Hr0 & Hk). right; right.
  rewrite <-Hk. by apply list_elem_of_fmap_2.
Qed.

Lemma later_readings_ignored_witness :
  latestPerRoom
    (sample_latest_wins_data ++ [mkRow (JStr "Lab") "2024-05-01T09:50:00+00:00" 9])
  = latestPerRoom sample_latest_wins_data.
Proof.
  apply later_readings_ignored. intros r Hr.
  apply list_elem_of_singleton in Hr as ->.
  exists (mkRow (JStr "Lab") "2024-05-01T09:59:00+00:00" 0).
  split; [|reflexivity].
  unfold sample_latest_wins_data.
  apply list_elem_of_further, list_elem_of_here.
Defined.

(** ** Grouping again *)

Lemma retained_distinct (seen : gset string) (l : list row) :
  NoDup (room_key <$> l) →
  Forall (λ r, (room_key r ∉ seen) ∧ inherited (room_key r) = false) l →
  retained seen l = (λ r, (room_key r, r)) <$> l.
Proof.
  revert seen. induction l as [|r l IH]; intros seen Hnd Hall; [done|].
  simpl in Hnd. apply NoDup_cons in Hnd as [Hnin Hnd].
  apply Forall_cons in Hall as [[Hseen Hinh] Hall]. simpl.
  rewrite decide_False by (intros [?|?]; [done | congruence]).
  csimpl. f_equal. apply IH; [done|].
  apply Forall_forall. intros r' Hr'.
  rewrite Forall_forall in Hall. destruct (Hall r' Hr') as [? ?].
  split; [|done]. intros [Heq%elem_of_singleton|?]%elem_of_union; [|done].
  apply Hnin. rewrite <-Heq. by apply list_elem_of_fmap_2.
Qed.

Lemma index_entries_of_indexed (l : list (N * row)) :
  Forall (λ x, array_index (room_key x.2) = Some x.1) l →
  index_entries ((λ r, (room_key r, r)) <$> l.*2) = l ∧
  string_entries ((λ r, (room_key r, r)) <$> l.*2) = [].
Proof.
  unfold index_entries, string_entries.
  induction 1 as [|[i r] l Hx _ [IH1 IH2]]; [done|].
  simpl in Hx. csimpl. rewrite Hx. csimpl. rewrite IH1. split; [done|].
  rewrite filter_cons. simpl. rewrite decide_False by congruence. exact IH2.
Qed.

Lemma index_entries_of_strings (o : obj) :
  Forall (λ p, p.1 = room_key p.2 ∧ array_index p.1 = None) o →
  (λ r, (room_key r, r)) <$> o.*2 = o ∧
  index_entries o = [] ∧ string_entries o = o.
Proof.
  unfold index_entries, string_entries.
  induction 1 as [|[k r] o [Hk Hnone] _ (IH1 & IH2 & IH3)]; [done|].
  simpl in Hk, Hnone. subst k. csimpl. rewrite IH1, Hnone. csimpl.
  split; [done|]. split; [done|].
  rewrite filter_cons. simpl. rewrite decide_True by done. by rewrite IH3.
Qed.

Lemma index_entries_app (o1 o2 : obj) :
  index_entries (o1 ++ o2) = index_entries o1 ++ index_entries o2.
Proof. unfold index_entries. apply omap_app. Qed.

Lemma string_entries_app (o1 o2 : obj) :
  string_entries (o1 ++ o2) = string_entries o1 ++ string_entries o2.
Proof. unfold string_entries. apply filter_app. Qed.

(** Grouping the returned array again returns it unchanged. *)
Theorem latestPerRoom_idempotent (data : list row) :
  latestPerRoom (latestPerRoom data) = latestPerRoom data.
Proof.
  assert (roomMap_loop (latestPerRoom data)
          = (λ r, (room_key r, r)) <$> latestPerRoom data) as Hloop.
  { rewrite roomMap_loop_retained. apply retained_distinct.
    - apply latestPerRoom_keys_NoDup.
    - apply Forall_forall. intros r Hr.
      apply latestPerRoom_elem, retained_key in Hr as (_ & _ & ?).
      split; [apply not_elem_of_empty | done]. }
  unfold latestPerRoom at 1. rewrite Hloop.
  unfold latestPerRoom, Object_values. rewrite roomMap_loop_retained.
  set (o := retained ∅ data).
  set (I := merge_sort index_le (index_entries o)).
  assert (∀ x, x ∈ I → ∃ k, (k, x.2) ∈ o ∧ array_index k = Some x.1
                          ∧ k = room_key x.2) as HI.
  { intros [i r] Hin. unfold I in Hin. rewrite merge_sort_Permutation in Hin.
    apply index_entries_elem in Hin as (k & Hin & Hk). exists k.
    split; [done|]. split; [done|]. by apply retained_key in Hin as (? & _). }
  destruct (index_entries_of_indexed I) as [HI1 HI2].
  { apply Forall_forall. intros x Hx.
    destruct (HI x Hx) as (k & _ & Hk & ->). exact Hk. }
  destruct (index_entries_of_strings (string_entries o)) as (HS0 & HS1 & HS2).
  { apply Forall_forall. intros [k r] Hin.
    apply string_entries_elem in Hin as [Hin Hk]. simpl.
    split; [|done]. by apply retained_key in Hin as (? & _). }
  rewrite fmap_app, index_entries_app, string_entries_app.
  rewrite HI1, HI2, HS0, HS1, HS2, app_nil_r. simpl.
  f_equal. f_equal.
  apply (StronglySorted_unique_strong index_le).
  - intros [i1 r1] [i2 r2] H1 H2 Hle1 Hle2. unfold index_le in *. simpl in *.
    assert (i1 = i2) as -> by lia.
    rewrite merge_sort_Permutation in H1.
    destruct (HI _ H1) as (k1 & Hin1 & Hk1 & _).
    destruct (HI _ H2) as (k2 & Hin2 & Hk2 & _). simpl in *.
    apply array_index_Some in Hk1, Hk2. subst k1 k2.
    f_equal. eapply NoDup_fst_functional; [apply retained_NoDup|done..].
  - apply StronglySorted_merge_sort; apply _.
  - apply StronglySorted_merge_sort; apply _.
  - apply merge_sort_Permutation.
Qed.

(** ** Status and labels on unusual values *)

(** The status is "empty" for the number 0 and for nothing else: not for
    [null], a missing count, [false] or a string. *)
Theorem empty_only_for_zero (env : host) (count : jsval) :
  status (getOccupancyStatus env count) = "empty" ↔ count = JNum 0.
Proof.
  unfold getOccupancyStatus. split.
  - destruct count as [| |b|n|s]; simpl; try discriminate;
      try (destruct (num_le _ 5); simpl; discriminate).
    destruct (decide (n = 0)) as [->|Hne]; [done|].
    rewrite bool_decide_eq_false_2 by done.
    destruct (bool_decide (n ≤ 5)); simpl; discriminate.
  - by intros ->.
Qed.

(** A count that is not validated still gets a status: negative numbers,
    [null] and booleans count as "moderate", a missing count as "full". *)
Theorem status_of_unusual_counts (env : host) :
  (∀ n, n < 0 → status (getOccupancyStatus env (JNum n)) = "moderate") ∧
  status (getOccupancyStatus env JNull) = "moderate" ∧
  (∀ b, status (getOccupancyStatus env (JBool b)) = "moderate") ∧
  status (getOccupancyStatus env JUndefined) = "full".
Proof.
  split; [|split; [done|split; [by intros []|done]]].
  intros n Hn. unfold getOccupancyStatus. simpl.
  rewrite bool_decide_eq_false_2 by lia.
  by rewrite bool_decide_eq_true_2 by lia.
Qed.

Lemma status_of_unusual_counts_witness :
  status (getOccupancyStatus sample_host (JNum (-3))) = "moderate".
Proof.
  destruct (status_of_unusual_counts sample_host) as [Hneg _].
  apply Hneg. lia.
Defined.

(** Whatever the count, the badge of a card is one of three, and its
    class, its text and the colour of the count go together. *)
Theorem card_badge_consistent (env : host) (now : Z) (room : row) :
  let c := createRoomCard env now room in
  (card_badge_class c, card_badge_text c, card_color c)
    ∈ [ ("empty", "Empty", "#0369a1");
        ("moderate", "Moderate", "#92400e");
        ("full", "Full", "#991b1b") ].
Proof.
  simpl. unfold getOccupancyStatus.
  destruct (strict_eq_num (people_count room) 0); simpl;
    [apply list_elem_of_here|].
  destruct (num_le (ToNumber env (people_count room)) 5); simpl.
  - apply list_elem_of_further, list_elem_of_here.
  - do 2 apply list_elem_of_further. apply list_elem_of_here.
Qed.

(** A timestamp that is not a date, a missing one included, is labelled
    "Invalid Date"; the fallback "Unknown" is not what comes out. *)
Theorem invalid_timestamp_label (env : host) (now : Z) (v : jsval) :
  newDate env v = None →
  formatTimestamp env now v = "Invalid Date".
Proof. intros Hnan. unfold formatTimestamp. by rewrite Hnan. Qed.

Lemma invalid_timestamp_label_witness :
  formatTimestamp sample_host 1714557600000 JUndefined = "Invalid Date" ∧
  formatTimestamp sample_host 1714557600000 (JStr "yesterday-ish")
    = "Invalid Date".
Proof.
  split; apply (invalid_timestamp_label sample_host); reflexivity.
Defined.

(** A row without a timestamp column still gets its card. *)
Theorem card_without_timestamp (env : host) (now : Z) (room : row) :
  room !! "timestamp" = None →
  card_timestamp (createRoomCard env now room) = "Last updated: Invalid Date".
Proof.
  intros Hnone. unfold createRoomCard. simpl.
  unfold timestamp, field. rewrite Hnone. done.
Qed.

Lemma card_without_timestamp_witness :
  card_timestamp
    (createRoomCard sample_host 0 {[ "room_id" := JStr "Lab" ]})
  = "Last updated: Invalid Date".
Proof. apply card_without_timestamp. reflexivity. Defined.

(** The number in a label stays in range: seconds from 0 to 59 for an
    observation less than a minute old, minutes from 1 to 59 for one less
    than an hour old. *)
Theorem label_number_range (env : host) (now : Z) (iso : string) (t : Z) :
  DateParse env iso = Some t →
  0 ≤ now - t < 3600000 →
  ∃ n, 0 ≤ n ≤ 59 ∧
    formatTimestamp env now (JStr iso) =
      pretty n +:+ (if decide (now - t < 60000) then "s ago" else "m ago") ∧
    (60000 ≤ now - t → 1 ≤ n).
Proof.
  intros Hparse Hage. rewrite (formatTimestamp_valid env now iso t Hparse).
  destruct (decide (now - t < 60000)) as [Hs|Hs].
  - exists ((now - t) / 1000). split; [|split; [done | lia]].
    split; [apply Z.div_pos; lia|].
    apply Z.lt_succ_r. apply Z.div_lt_upper_bound; lia.
  - rewrite decide_True by lia.
    exists ((now - t) / 60000). split; [|split; [done|]].
    + split; [apply Z.div_pos; lia|].
      apply Z.lt_succ_r. apply Z.div_lt_upper_bound; lia.
    + intros _. apply Z.div_le_lower_bound; lia.
Qed.

Lemma label_number_range_witness :
  ∃ n, 0 ≤ n ≤ 59 ∧
    formatTimestamp sample_host 1714557659999 (JStr "2024-05-01T10:00:00+00:00")
    = pretty n +:+
        (if decide (1714557659999 - 1714557600000 < 60000)
         then "s ago" else "m ago") ∧
    (60000 ≤ 1714557659999 - 1714557600000 → 1 ≤ n).
Proof.
  apply (label_number_range sample_host); [reflexivity | lia].
Defined.

(** ** What the page keeps while it is refreshed *)

Lemma step_controls_in_sync env p e :
  controls_in_sync p → controls_in_sync (step env p e).
Proof.
  unfold controls_in_sync. intros [Hbtn Hind].
  destruct e as [|i resp now]; simpl.
  - unfold loadRoomData. destruct (isLoading p) eqn:Hflag; simpl.
    + rewrite Hflag. by split.
    + by split.
  - destruct (awaiting p !! i) as [[|message]|]; simpl; by split.
Qed.

(** The refresh button is disabled and the loading indicator visible
    exactly while a call of [loadRoomData] is under way. *)
Theorem controls_follow_flag (env : host) (p : page) (events : list event) :
  controls_in_sync p → controls_in_sync (run env p events).
Proof.
  revert p. induction events as [|e events IH]; intros p Hp; simpl; [done|].
  apply IH. by apply step_controls_in_sync.
Qed.

Lemma controls_follow_flag_witness :
  controls_in_sync
    (run sample_host connected_page
       [Refresh; Refresh; Settle 0 (Rejects "Failed to fetch") 0; Refresh]).
Proof. apply controls_follow_flag. by split. Defined.

Lemma renderRoomCards_nil env now rooms :
  renderRoomCards env now rooms = [] ↔ rooms = [].
Proof. unfold renderRoomCards. by destruct rooms. Qed.

Lemma resume_placeholder_matches env now outcome p :
  placeholder_matches (loadRoomData_resume env now outcome p).
Proof.
  unfold placeholder_matches, loadRoomData_resume.
  destruct outcome as [message|rooms]; simpl; [done|].
  destruct (decide (length rooms = 0%nat)) as [Hlen|Hlen]; simpl; [done|].
  symmetry. apply bool_decide_eq_true. rewrite renderRoomCards_nil.
  intros ->. by apply Hlen.
Qed.

(** Every completed refresh leaves the "no data" placeholder visible
    exactly when the grid is empty, and nothing else that happens to the
    page breaks this. *)
Theorem placeholder_iff_grid_empty (env : host) (p : page) :
  (∀ i resp now, is_Some (awaiting p !! i) →
     placeholder_matches (step env p (Settle i resp now))) ∧
  (∀ events, placeholder_matches p → placeholder_matches (run env p events)).
Proof.
  split.
  - intros i resp now [t Ht]. simpl. rewrite Ht.
    destruct t; apply resume_placeholder_matches.
  - intros events. revert p.
    induction events as [|e events IH]; intros p Hp; simpl; [done|].
    apply IH. destruct e as [|i resp now]; simpl.
    + unfold loadRoomData. by destruct (isLoading p).
    + destruct (awaiting p !! i) as [[|message]|]; [..|done];
        apply resume_placeholder_matches.
Qed.

Lemma placeholder_iff_grid_empty_witness :
  placeholder_matches
    (step sample_host (loadRoomData connected_page)
       (Settle 0 (ReturnsData sample_latest_wins_data) 1714557601000)) ∧
  placeholder_matches (run sample_host loaded_page [Refresh; Refresh]).
Proof.
  split.
  - apply (placeholder_iff_grid_empty sample_host (loadRoomData connected_page)).
    by eexists.
  - apply (placeholder_iff_grid_empty sample_host loaded_page). reflexivity.
Defined.

Lemma loadRoomData_busy p : isLoading p = true → loadRoomData p = p.
Proof. intros Hflag. unfold loadRoomData. by rewrite Hflag. Qed.

Lemma loadRoomData_starts p :
  isLoading p = false →
  isLoading (loadRoomData p) = true ∧
  (queries (loadRoomData p) ≤ S (queries p))%nat.
Proof.
  intros Hflag. unfold loadRoomData. rewrite Hflag. simpl. split; [done|].
  destruct (fetchLatestRoomCounts_start _); simpl; lia.
Qed.

Lemma settle_queries env p i resp now :
  queries (step env p (Settle i resp now)) = queries p.
Proof. simpl. by destruct (awaiting p !! i) as [[|message]|]. Qed.

Lemma settle_flag env p i resp now :
  is_Some (awaiting p !! i) →
  isLoading (step env p (Settle i resp now)) = false.
Proof. intros [t Ht]. simpl. rewrite Ht. by destruct t. Qed.

Lemma queries_bound_aux env p events :
  one_or_none p →
  (queries (run env p events)
   ≤ queries p + (if isLoading p then 0 else 1)
     + length (filter (λ e, is_settle e = true) events))%nat.
Proof.
  revert p. induction events as [|e events IH]; intros p Hp; [simpl; lia|].
  pose proof (step_one_or_none env p e Hp) as Hp'.
  specialize (IH _ Hp'). rewrite filter_cons.
  change (run env p (e :: events)) with (run env (step env p e) events).
  destruct e as [|i resp now].
  - change (step env p Refresh) with (loadRoomData p) in *.
    rewrite decide_False by done.
    destruct (isLoading p) eqn:Hflag.
    + rewrite (loadRoomData_busy p Hflag) in *. rewrite Hflag in IH. lia.
    + destruct (loadRoomData_starts p Hflag) as [Hup Hq].
      rewrite Hup in IH. lia.
  - rewrite decide_True by done. simpl length.
    rewrite settle_queries in IH.
    destruct (awaiting p !! i) as [t|] eqn:Ht.
    + assert (isLoading p = true) as ->.
      { destruct Hp as [[_ Hnone]|[? _]]; [|done].
        rewrite Hnone in Ht. by rewrite lookup_nil in Ht. }
      rewrite settle_flag in IH by (by eexists). lia.
    + assert (step env p (Settle i resp now) = p) as Hsame
        by (simpl; by rewrite Ht).
      rewrite Hsame in *. destruct (isLoading p); lia.
Qed.

(** Starting from an idle page, the queries sent never outnumber the calls
    of [loadRoomData], nor the settled promises by more than one. *)
Theorem queries_bound (env : host) (p : page) (events : list event) :
  idle p →
  (queries (run env p events)
   ≤ queries p + length (filter (λ e, is_settle e = false) events))%nat ∧
  (queries (run env p events)
   ≤ queries p + 1 + length (filter (λ e, is_settle e = true) events))%nat.
Proof.
  intros Hidle. split.
  - clear Hidle. revert p.
    induction events as [|e events IH]; intros p; [simpl; lia|].
    specialize (IH (step env p e)). rewrite filter_cons.
    change (run env p (e :: events)) with (run env (step env p e) events).
    destruct e as [|i resp now].
    + change (step env p Refresh) with (loadRoomData p) in *.
      rewrite decide_True by done. simpl length.
      destruct (isLoading p) eqn:Hflag.
      * rewrite (loadRoomData_busy p Hflag) in *. lia.
      * destruct (loadRoomData_starts p Hflag) as [_ Hq]. lia.
    + rewrite decide_False by done. rewrite settle_queries in IH. lia.
  - pose proof (queries_bound_aux env p events (or_introl Hidle)) as Hb.
    destruct Hidle as [Hflag _]. rewrite Hflag in Hb. lia.
Qed.

Lemma queries_bound_witness :
  (queries
     (run sample_host connected_page
        [Refresh; Refresh; Settle 0 (ReturnsData []) 0; Refresh; Refresh])
   ≤ queries connected_page + 1 + 1)%nat.
Proof.
  destruct (queries_bound sample_host connected_page
              [Refresh; Refresh; Settle 0 (ReturnsData []) 0; Refresh; Refresh])
    as [_ Hb]; [by split|].
  exact Hb.
Defined.

(** Without a client no query leaves the page: the call fails on its own,
    whatever the backend would have answered, and says why. *)
Theorem refresh_without_client (env : host) (p : page) (resp : response)
    (now : Z) :
  idle p →
  supabaseClient p = false →
  let q := run env p [Refresh; Settle 0 resp now] in
  queries q = queries p ∧
  idle q ∧
  errorMessage_hidden (document q) = false ∧
  errorMessage_text (document q)
    = "Failed to load room data: Supabase client not initialized" ∧
  statusText (document q) = "Failed to load data" ∧
  roomGrid (document q) = [].
Proof.
  intros [Hflag Hnone] Hclient. simpl. unfold loadRoomData.
  rewrite Hflag, Hclient, Hnone. simpl. repeat split. lia.
Qed.

Lemma refresh_without_client_witness :
  let q := run sample_host (view (fresh_app ∅ true))
             [Refresh; Settle 0 (ReturnsData sample_latest_wins_data) 0] in
  queries q = 0%nat ∧
  errorMessage_text (document q)
    = "Failed to load room data: Supabase client not initialized".
Proof.
  destruct (refresh_without_client sample_host (view (fresh_app ∅ true))
              (ReturnsData sample_latest_wins_data) 0)
    as (Hq & _ & _ & Htext & _); [by split | reflexivity |].
  split; [exact Hq | exact Htext].
Defined.

(** The "last updated" line moves on every refresh that succeeds, with or
    without rooms, and stays as it is when the refresh fails. *)
Theorem last_update_only_on_success (env : host) (p : page) (i : nat)
    (resp : response) (now : Z) :
  awaiting p !! i = Some AwaitResponse →
  lastUpdateText (document (step env p (Settle i resp now))) =
    match resp with
    | ReturnsData _ => "Last updated: " +:+ toLocaleTimeString env now
    | Rejects _ | ReturnsError _ => lastUpdateText (document p)
    end.
Proof.
  intros Htask. simpl. rewrite Htask.
  by destruct resp as [message|message|data].
Qed.

Lemma last_update_only_on_success_witness :
  lastUpdateText
    (document
       (step sample_host (loadRoomData loaded_page)
          (Settle 0 (Rejects "Failed to fetch") 1714557631000)))
  = lastUpdateText (document (loadRoomData loaded_page)).
Proof.
  apply (last_update_only_on_success sample_host (loadRoomData loaded_page) 0
           (Rejects "Failed to fetch")).
  reflexivity.
Defined.

(** A refresh that succeeds shows one card per distinct room of the
    response, in the order of the returned array, and counts them in the
    status line; with no such room it shows the placeholder and says so,
    which is not the failure state. *)
Theorem successful_refresh (env : host) (p : page) (i : nat)
    (data : list row) (now : Z) :
  awaiting p !! i = Some AwaitResponse →
  let q := step env p (Settle i (ReturnsData data) now) in
  roomGrid (document q) = createRoomCard env now <$> latestPerRoom data ∧
  length (roomGrid (document q)) = size (distinct_rooms data) ∧
  statusText (document q) =
    (if decide (size (distinct_rooms data) = 0%nat) then "No rooms with data"
     else "Connected • " +:+ pretty (size (distinct_rooms data)) +:+ " room(s)") ∧
  statusText_color (document q) =
    (if decide (size (distinct_rooms data) = 0%nat) then "#f59e0b"
     else "#10b981") ∧
  errorMessage_hidden (document q) = errorMessage_hidden (document p) ∧
  isLoading q = false.
Proof.
  intros Htask. simpl. rewrite Htask. simpl.
  destruct (latestPerRoom_rooms data) as (_ & Hlen & _). rewrite <-Hlen.
  destruct (decide (length (latestPerRoom data) = 0%nat)) as [Hz|Hz]; simpl.
  - apply length_zero_iff_nil in Hz. rewrite Hz. by repeat split.
  - unfold renderRoomCards. rewrite length_fmap. by repeat split.
Qed.

Lemma successful_refresh_witness :
  let q := step sample_host (loadRoomData connected_page)
             (Settle 0 (ReturnsData [row_toString]) 0) in
  roomGrid (document q) = [] ∧
  statusText (document q) = "No rooms with data".
Proof.
  destruct (successful_refresh sample_host (loadRoomData connected_page) 0
              [row_toString] 0) as (Hgrid & _ & Hstatus & _); [reflexivity|].
  split; [exact Hgrid | exact Hstatus].
Defined.

(** ** Room names in card headings *)

Lemma occurs_app (c : ascii) (s1 s2 : string) :
  occurs c (s1 +:+ s2) = occurs c s1 || occurs c s2.
Proof.
  induction s1 as [|c1 s1 IH]; simpl; [done|].
  by rewrite IH, orb_assoc.
Qed.

Lemma escape_text_no_markup (n : nat) (s : string) :
  (String.length s ≤ n)%nat →
  occurs "<" (escape_text s) = false ∧ occurs ">" (escape_text s) = false.
Proof.
  revert s. induction n as [|n IH]; intros s Hlen.
  - destruct s; [done | simpl in Hlen; lia].
  - destruct s as [|c s]; [done|]. simpl in Hlen.
    assert (String.length s ≤ n)%nat as Hs by lia.
    destruct (IH s Hs) as [IHlt IHgt]. simpl.
    destruct (decide (c = "&"%char)); [by rewrite !occurs_app, IHlt, IHgt|].
    destruct (decide (c = "<"%char)) as [|Hlt];
      [by rewrite !occurs_app, IHlt, IHgt|].
    destruct (decide (c = ">"%char)) as [|Hgt];
      [by rewrite !occurs_app, IHlt, IHgt|].
    assert (occurs "<" (String c (escape_text s)) = false
            ∧ occurs ">" (String c (escape_text s)) = false) as Hplain.
    { simpl. rewrite IHlt, IHgt.
      by rewrite !bool_decide_eq_false_2 by done. }
    destruct (decide (c = _)) as [->|]; [|exact Hplain].
    destruct s as [|c' s']; [exact Hplain|].
    destruct (decide (c' = _)); [|exact Hplain].
    simpl in Hs. destruct (IH s') as [IHlt' IHgt']; [lia|].
    by rewrite !occurs_app, IHlt', IHgt'.
Qed.

(** Whatever the room identifier of a row, the heading of its card holds
    no angle bracket: a room name cannot open or close a tag. *)
Theorem card_heading_no_markup (env : host) (now : Z) (room : row) :
  occurs "<" (card_heading (createRoomCard env now room)) = false ∧
  occurs ">" (card_heading (createRoomCard env now room)) = false.
Proof.
  unfold card_heading, escapeHtml. simpl.
  eapply escape_text_no_markup. reflexivity.
Qed.

Lemma escape_text_plain (s : string) :
  occurs "&" s = false → occurs "<" s = false → occurs ">" s = false →
  occurs (ascii_of_N 194) s = false →
  escape_text s = s.
Proof.
  induction s as [|c s IH]; [done|]. simpl.
  intros [Ha Has]%orb_false_elim [Hl Hls]%orb_false_elim
         [Hg Hgs]%orb_false_elim [Hn Hns]%orb_false_elim.
  apply bool_decide_eq_false in Ha, Hl, Hg, Hn.
  rewrite !decide_False by done. f_equal. by apply IH.
Qed.

(** A room identifier without [&], [<], [>] and without a byte C2 (so
    any plain ASCII name, or a number) is shown as it is. *)
Theorem escapeHtml_plain (text : jsval) :
  occurs "&" (textContent_of text) = false →
  occurs "<" (textContent_of text) = false →
  occurs ">" (textContent_of text) = false →
  occurs (ascii_of_N 194) (textContent_of text) = false →
  escapeHtml text = textContent_of text.
Proof. apply escape_text_plain. Qed.

Lemma escapeHtml_plain_witness :
  escapeHtml (JStr "Lobby 2") = "Lobby 2" ∧ escapeHtml (JNum 101) = "101".
Proof.
  split; apply escapeHtml_plain; reflexivity.
Defined.

(** ** Credentials *)

Lemma truthy_Some (o : option string) :
  truthy o = true ↔ ∃ s, o = Some s ∧ s ≠ EmptyString.
Proof.
  split.
  - destruct o as [[|c s]|]; simpl; try discriminate.
    intros _. by exists (String c s).
  - intros (s & -> & Hs). by destruct s.
Qed.

(** When nothing usable is stored, credentials are saved exactly when both
    prompts are answered, the URL starts with "https://" and contains
    "supabase.co"; any other answer ends in an error and stores nothing. *)
Theorem credentials_saved_iff_valid
    (st : localStorage) (url key : option string) :
  lacks_credentials st →
  ((∃ st' cfg, promptForCredentials st url key = Saved st' cfg) ↔
   (∃ u k, url = Some u ∧ key = Some k ∧ credentials_valid u k)) ∧
  ((∃ message, promptForCredentials st url key = PromptError message) ∨
   (∃ st' cfg, promptForCredentials st url key = Saved st' cfg)).
Proof.
  intros Hlacks. unfold promptForCredentials.
  assert (negb (truthy (st !! "SUPABASE_URL"))
          || negb (truthy (st !! "SUPABASE_ANON_KEY")) = true) as ->.
  { destruct Hlacks as [->| ->]; [done | apply orb_true_r]. }
  destruct (truthy url) eqn:Hu; simpl.
  2:{ split; [|left; by eexists]. split; [by intros (? & ? & ?)|].
      intros (u & k & -> & _ & Hne & _). by destruct u. }
  destruct (truthy key) eqn:Hk; simpl.
  2:{ split; [|left; by eexists]. split; [by intros (? & ? & ?)|].
      intros (u & k & _ & -> & _ & Hne & _). by destruct k. }
  apply truthy_Some in Hu as (u & -> & Hune), Hk as (k & -> & Hkne). simpl.
  destruct (startsWith u "https://") eqn:Hs; simpl.
  2:{ split; [|left; by eexists]. split; [by intros (? & ? & ?)|].
      intros (u' & k' & [= <-] & _ & _ & _ & Hs' & _). congruence. }
  destruct (includes u "supabase.co") eqn:Hi; simpl.
  2:{ split; [|left; by eexists]. split; [by intros (? & ? & ?)|].
      intros (u' & k' & [= <-] & _ & _ & _ & _ & Hi'). congruence. }
  split; [|right; by do 2 eexists].
  split; [|by do 2 eexists]. intros _. exists u, k. by repeat split.
Qed.

Lemma credentials_saved_iff_valid_witness :
  ∃ st' cfg,
    promptForCredentials ∅
      (Some "https://abc.supabase.co") (Some "anon-key") = Saved st' cfg.
Proof.
  destruct (credentials_saved_iff_valid ∅
              (Some "https://abc.supabase.co") (Some "anon-key")) as [Hiff _].
  { by left. }
  apply Hiff. exists "https://abc.supabase.co", "anon-key".
  by repeat split.
Defined.

Lemma Saved_read_back
    (st st' : localStorage) (url key : option string) (cfg : config) :
  promptForCredentials st url key = Saved st' cfg →
  url = Some (SUPABASE_URL cfg) ∧
  key = Some (SUPABASE_ANON_KEY cfg) ∧
  st' !! "SUPABASE_URL" = Some (SUPABASE_URL cfg) ∧
  st' !! "SUPABASE_ANON_KEY" = Some (SUPABASE_ANON_KEY cfg) ∧
  CONFIG_of st' = cfg ∧
  (∀ url' key', promptForCredentials st' url' key' = NotPrompted) ∧
  (∀ sdk url' key',
     initializeApp url' key' (fresh_app st' sdk)
     = initializeApp_connect (fresh_app st' sdk)).
Proof.
  unfold promptForCredentials.
  destruct (negb (truthy (st !! "SUPABASE_URL")) || _); [|done].
  destruct (truthy url) eqn:Hu; simpl; [|done].
  destruct (truthy key) eqn:Hk; simpl; [|done].
  apply truthy_Some in Hu as (u & -> & Hune), Hk as (k & -> & Hkne). simpl.
  destruct (negb (startsWith u "https://") || _); [done|].
  intros [= <- <-]. simpl.
  assert (CONFIG_of
            (<["SUPABASE_ANON_KEY":=k]> (<["SUPABASE_URL":=u]> st))
          = {| SUPABASE_URL := u; SUPABASE_ANON_KEY := k |}) as Hcfg.
  { unfold CONFIG_of. rewrite lookup_insert_eq.
    rewrite lookup_insert_ne by done. rewrite lookup_insert_eq. simpl.
    by destruct u, k. }
  assert (truthy (Some u) = true ∧ truthy (Some k) = true) as [Htu Htk]
    by (by destruct u, k).
  split; [done|]. split; [done|].
  split; [by rewrite lookup_insert_ne, lookup_insert_eq|].
  split; [by rewrite lookup_insert_eq|].
  split; [exact Hcfg|]. split.
  - intros url' key'. rewrite lookup_insert_eq.
    rewrite lookup_insert_ne by done. rewrite lookup_insert_eq.
    by rewrite Htu, Htk.
  - intros sdk url' key'. unfold initializeApp.
    set (a := fresh_app _ sdk).
    assert (CONFIG a = {| SUPABASE_URL := u; SUPABASE_ANON_KEY := k |}) as ->
      by exact Hcfg.
    cbn [SUPABASE_URL SUPABASE_ANON_KEY]. by rewrite Htu, Htk.
Qed.

(** What is saved is what the user typed, and it is what the script reads
    back into [CONFIG] the next time the page loads; with it stored, the
    next start-up no longer prompts. *)
Theorem saved_credentials_read_back
    (st st' : localStorage) (url key : option string) (cfg : config) :
  promptForCredentials st url key = Saved st' cfg →
  url = Some (SUPABASE_URL cfg) ∧
  key = Some (SUPABASE_ANON_KEY cfg) ∧
  st' !! "SUPABASE_URL" = Some (SUPABASE_URL cfg) ∧
  st' !! "SUPABASE_ANON_KEY" = Some (SUPABASE_ANON_KEY cfg) ∧
  CONFIG_of st' = cfg ∧
  (∀ url' key', promptForCredentials st' url' key' = NotPrompted) ∧
  (∀ sdk url' key',
     initializeApp url' key' (fresh_app st' sdk)
     = initializeApp_connect (fresh_app st' sdk)).
Proof. apply Saved_read_back. Qed.

Lemma saved_credentials_read_back_witness :
  CONFIG_of
    (<["SUPABASE_ANON_KEY" := "anon-key"]>
       (<["SUPABASE_URL" := "https://abc.supabase.co"]> ∅))
  = {| SUPABASE_URL := "https://abc.supabase.co";
       SUPABASE_ANON_KEY := "anon-key" |}.
Proof.
  destruct (saved_credentials_read_back ∅
              (<["SUPABASE_ANON_KEY" := "anon-key"]>
                 (<["SUPABASE_URL" := "https://abc.supabase.co"]> ∅))
              (Some "https://abc.supabase.co") (Some "anon-key")
              {| SUPABASE_URL := "https://abc.supabase.co";
                 SUPABASE_ANON_KEY := "anon-key" |})
    as (_ & _ & _ & _ & Hcfg & _); [reflexivity|].
  exact Hcfg.
Defined.

(** After [clearCredentials] the reloaded script finds no credentials at
    all, whatever was stored, and asks for them again. *)
Theorem cleared_credentials_prompt_again (st : localStorage) :
  clearCredentials st !! "SUPABASE_URL" = None ∧
  clearCredentials st !! "SUPABASE_ANON_KEY" = None ∧
  CONFIG_of (clearCredentials st)
    = {| SUPABASE_URL := EmptyString; SUPABASE_ANON_KEY := EmptyString |} ∧
  lacks_credentials (clearCredentials st) ∧
  (∀ url key, promptForCredentials (clearCredentials st) url key ≠ NotPrompted).
Proof.
  assert (clearCredentials st !! "SUPABASE_URL" = None) as Hu.
  { unfold clearCredentials.
    by rewrite lookup_delete_ne, lookup_delete_eq. }
  assert (clearCredentials st !! "SUPABASE_ANON_KEY" = None) as Hk.
  { unfold clearCredentials. by rewrite lookup_delete_eq. }
  split; [done|]. split; [done|].
  split; [unfold CONFIG_of; by rewrite Hu, Hk|].
  split; [left; by rewrite Hu|].
  intros url key. unfold promptForCredentials. rewrite Hu, Hk. simpl.
  destruct (truthy url); simpl; [|done].
  destruct (truthy key); simpl; [|done].
  by destruct (negb _ || negb _).
Qed.

(** ** Start-up *)

(** Without the client library on the page, start-up stops with an error
    on the page: no client, no listener on the button, no query. *)
Theorem startup_without_library (url key : option string) (a : app) :
  truthy (Some (SUPABASE_URL (CONFIG a))) = true →
  truthy (Some (SUPABASE_ANON_KEY (CONFIG a))) = true →
  sdk_loaded a = false →
  let a' := initializeApp url key a in
  statusText (document (view a')) = "Initialization failed" ∧
  errorMessage_hidden (document (view a')) = false ∧
  errorMessage_text (document (view a'))
    = "Failed to initialize: Supabase SDK not loaded" ∧
  supabaseClient (view a') = supabaseClient (view a) ∧
  click_listeners a' = click_listeners a ∧
  queries (view a') = queries (view a) ∧
  isLoading (view a') = isLoading (view a).
Proof.
  intros Hu Hk Hsdk. simpl. unfold initializeApp, initializeApp_connect.
  rewrite Hu, Hk, Hsdk. simpl. by repeat split.
Qed.

Lemma startup_without_library_witness :
  statusText
    (document
       (view
          (initializeApp None None
             (fresh_app
                (<["SUPABASE_ANON_KEY" := "anon-key"]>
                   (<["SUPABASE_URL" := "https://abc.supabase.co"]> ∅))
                false))))
  = "Initialization failed".
Proof.
  apply (startup_without_library None None
           (fresh_app
              (<["SUPABASE_ANON_KEY" := "anon-key"]>
                 (<["SUPABASE_URL" := "https://abc.supabase.co"]> ∅))
              false)); reflexivity.
Defined.

Lemma truthy_CONFIG_of (o : option string) :
  truthy (Some (if truthy o then default EmptyString o else EmptyString))
  = truthy o.
Proof. by destruct o as [[|c s]|]. Qed.

Lemma lacks_credentials_true (st : localStorage) :
  lacks_credentials st →
  negb (truthy (st !! "SUPABASE_URL"))
  || negb (truthy (st !! "SUPABASE_ANON_KEY")) = true.
Proof. intros [->| ->]; [done | apply orb_true_r]. Qed.

Lemma promptForCredentials_valid (st : localStorage) (u k : string) :
  lacks_credentials st → credentials_valid u k →
  promptForCredentials st (Some u) (Some k)
  = Saved (<["SUPABASE_ANON_KEY" := k]> (<["SUPABASE_URL" := u]> st))
          {| SUPABASE_URL := u; SUPABASE_ANON_KEY := k |}.
Proof.
  intros Hlacks (Hu & Hk & Hs & Hi). unfold promptForCredentials.
  rewrite (lacks_credentials_true st Hlacks).
  assert (truthy (Some u) = true ∧ truthy (Some k) = true) as [-> ->]
    by (by destruct u, k).
  cbn [negb default from_option id]. by rewrite Hs, Hi.
Qed.

(** On a first visit with the library loaded, valid answers to the two
    prompts are stored and lead straight to the first query, with the
    button wired. *)
Theorem first_visit_connects (st : localStorage) (u k : string) :
  lacks_credentials st →
  credentials_valid u k →
  let a' := initializeApp (Some u) (Some k) (fresh_app st true) in
  CONFIG a' = {| SUPABASE_URL := u; SUPABASE_ANON_KEY := k |} ∧
  CONFIG_of (storage a') = CONFIG a' ∧
  supabaseClient (view a') = true ∧
  click_listeners a' = 1%nat ∧
  queries (view a') = 1%nat ∧
  awaiting (view a') = [AwaitResponse] ∧
  isLoading (view a') = true.
Proof.
  intros Hlacks Hvalid. cbv zeta.
  pose proof (promptForCredentials_valid st u k Hlacks Hvalid) as Hsaved.
  destruct (Saved_read_back _ _ _ _ _ Hsaved)
    as (_ & _ & _ & _ & Hcfg & _).
  assert (initializeApp (Some u) (Some k) (fresh_app st true)
          = initializeApp_connect
              {| CONFIG := {| SUPABASE_URL := u; SUPABASE_ANON_KEY := k |};
                 storage :=
                   <["SUPABASE_ANON_KEY" := k]> (<["SUPABASE_URL" := u]> st);
                 sdk_loaded := true;
                 click_listeners := 0;
                 view := view (fresh_app st true) |}) as ->.
  { unfold initializeApp.
    change (CONFIG (fresh_app st true)) with (CONFIG_of st).
    change (storage (fresh_app st true)) with st.
    unfold CONFIG_of at 1 2. cbn [SUPABASE_URL SUPABASE_ANON_KEY].
    rewrite !truthy_CONFIG_of, (lacks_credentials_true st Hlacks), Hsaved.
    done. }
  unfold initializeApp_connect. cbn [sdk_loaded CONFIG storage view].
  split; [done|]. split; [exact Hcfg|]. by repeat split.
Qed.

Lemma first_visit_connects_witness :
  queries
    (view (initializeApp (Some "https://abc.supabase.co") (Some "anon-key")
             (fresh_app ∅ true)))
  = 1%nat.
Proof.
  destruct (first_visit_connects ∅ "https://abc.supabase.co" "anon-key")
    as (_ & _ & _ & _ & Hq & _); [by left | by repeat split |].
  exact Hq.
Defined.

(** When start-up has credentials and the library, the status line ends up
    reading "Connected" once the first load is over, also when that load
    failed and the error message is on the page. *)
Theorem startup_ends_connected (env : host) (url key : option string)
    (a : app) (resp : response) (now : Z) :
  truthy (Some (SUPABASE_URL (CONFIG a))) = true →
  truthy (Some (SUPABASE_ANON_KEY (CONFIG a))) = true →
  sdk_loaded a = true →
  idle (view a) →
  let a' :=
    initializeApp_finish
      (app_step env (initializeApp url key a) (Settle 0 resp now)) in
  statusText (document (view a')) = "Connected" ∧
  statusText_color (document (view a')) = "#10b981" ∧
  idle (view a') ∧
  queries (view a') = S (queries (view a)) ∧
  (∀ message, fetchLatestRoomCounts_resume resp = inl message →
     errorMessage_hidden (document (view a')) = false ∧
     errorMessage_text (document (view a'))
       = "Failed to load room data: " +:+ message ∧
     roomGrid (document (view a')) = []).
Proof.
  intros Hu Hk Hsdk [Hflag Hnone]. simpl.
  unfold initializeApp, initializeApp_connect. rewrite Hu, Hk, Hsdk. simpl.
  unfold loadRoomData. simpl. rewrite Hflag, Hnone. simpl.
  split; [done|]. split; [done|]. split; [done|]. split; [lia|].
  intros message ->. done.
Qed.

Lemma startup_ends_connected_witness :
  let a' :=
    initializeApp_finish
      (app_step sample_host
         (initializeApp None None
            (fresh_app
               (<["SUPABASE_ANON_KEY" := "anon-key"]>
                  (<["SUPABASE_URL" := "https://abc.supabase.co"]> ∅))
               true))
         (Settle 0 (Rejects "Failed to fetch") 0)) in
  statusText (document (view a')) = "Connected" ∧
  errorMessage_hidden (document (view a')) = false.
Proof.
  destruct (startup_ends_connected sample_host None None
              (fresh_app
                 (<["SUPABASE_ANON_KEY" := "anon-key"]>
                    (<["SUPABASE_URL" := "https://abc.supabase.co"]> ∅))
                 true)
              (Rejects "Failed to fetch") 0)
    as (Hstatus & _ & _ & _ & Herr); [reflexivity.. | by split |].
  split; [exact Hstatus|].
  by destruct (Herr "Failed to fetch" eq_refl) as [Hhidden _].
Defined.
